(** * Scoring and evaluation engine: BM25, TF-IDF and ranking metrics

    A shallow embedding of [bm25.py], [tf_idf.py] and [performance.py].

    Conventions of the embedding.
    - A Python [dict] is an insertion-ordered association list whose keys
      are pairwise distinct; document identifiers, terms and query
      identifiers are strings.
    - Python [int] is [Z].  The true division [/] of two ints and the
      scores handled by the metrics are exact rationals ([Q]); the results
      of [math.log] and [math.log1p] are real numbers ([R]).  Rounding of
      binary64 arithmetic is not modelled.
    - A raised exception is a value of [exception]; a function that can
      raise returns a [result]. *)

From Stdlib Require Import List ZArith QArith Qreals Reals String Ascii Bool.
From Stdlib Require Import Lia Lra Permutation Sorted.
From Stdlib Require Import Psatz.
Import ListNotations.

Local Open Scope string_scope.
Local Open Scope Z_scope.

(* ------------------------------------------------------------------ *)
(** ** Exceptions *)

Inductive exception : Type :=
| KeyError
| ValueError
| ZeroDivisionError
| RuntimeError (msg : string)
| Exception (msg : string).

Inductive result (A : Type) : Type :=
| Ok (a : A)
| Raise (e : exception).

Arguments Ok {A} a.
Arguments Raise {A} e.

(** The errors raised by subscripts, [math.log] and divisions. *)
Definition builtin_error (e : exception) : Prop :=
  e = KeyError \/ e = ValueError \/ e = ZeroDivisionError.

Definition bind {A B : Type} (m : result A) (f : A -> result B) : result B :=
  match m with
  | Ok a => f a
  | Raise e => Raise e
  end.

Notation "x <- m ;; k" := (bind m (fun x => k))
  (at level 61, m at next level, right associativity).

(** [for x in l: acc = body(acc, x)] where the body may raise. *)
Fixpoint for_each {A S : Type} (l : list A) (body : S -> A -> result S) (acc : S)
  : result S :=
  match l with
  | [] => Ok acc
  | x :: l' => acc' <- body acc x ;; for_each l' body acc'
  end.

(* ------------------------------------------------------------------ *)
(** ** Dictionaries *)

Module Dict.

Definition dict (V : Type) : Type := list (string * V).

Definition keys {V} (d : dict V) : list string := map fst d.

Definition len {V} (d : dict V) : Z := Z.of_nat (List.length d).

(** [d.get(k)]; [None] is also the case where [d[k]] raises [KeyError]. *)
Fixpoint get {V} (d : dict V) (k : string) : option V :=
  match d with
  | [] => None
  | (k', v) :: d' => if String.eqb k' k then Some v else get d' k
  end.

(** [d[k]]. *)
Definition getitem {V} (d : dict V) (k : string) : result V :=
  match get d k with
  | Some v => Ok v
  | None => Raise KeyError
  end.

(** [k in d]. *)
Definition mem {V} (d : dict V) (k : string) : bool :=
  match get d k with
  | Some _ => true
  | None => false
  end.

(** [d.update({k: v})] and [d[k] = v]: an existing key keeps its
    position, a new key goes last. *)
Fixpoint update {V} (d : dict V) (k : string) (v : V) : dict V :=
  match d with
  | [] => [(k, v)]
  | (k', v') :: d' =>
      if String.eqb k' k then (k', v) :: d' else (k', v') :: update d' k v
  end.

(** [d.pop(k)] for a key that is present (the popped value is unused). *)
Fixpoint pop {V} (d : dict V) (k : string) : dict V :=
  match d with
  | [] => []
  | (k', v') :: d' => if String.eqb k' k then d' else (k', v') :: pop d' k
  end.

(** The invariant of a Python dict: no key occurs twice. *)
Definition wf {V} (d : dict V) : Prop := NoDup (keys d).

End Dict.

Import Dict.

(** [a / b] on two ints. *)
Definition true_div (a b : Z) : result Q :=
  if b =? 0 then Raise ZeroDivisionError
  else Ok (inject_Z a / inject_Z b)%Q.

(** [x / n] for a float [x] and an int [n]. *)
Definition float_div (x : Q) (n : Z) : result Q :=
  if n =? 0 then Raise ZeroDivisionError
  else Ok (x / inject_Z n)%Q.

(** [math.log1p(x)]: the natural logarithm of [1 + x], a domain error
    when [x <= -1]. *)
Definition math_log1p (x : Q) : result R :=
  if Qle_bool x (-1) then Raise ValueError
  else Ok (ln (1 + Q2R x))%R.

(** [math.log(x, 10)]: [log(x) / log(10)], a domain error when [x <= 0]. *)
Definition math_log10 (x : Q) : result R :=
  if Qle_bool x 0 then Raise ValueError
  else Ok (ln (Q2R x) / ln 10)%R.

(** [x / y] for two floats. *)
Definition float_truediv (x y : Q) : result Q :=
  if Qeq_bool y 0 then Raise ZeroDivisionError
  else Ok (x / y)%Q.

(** [str.split()] on ASCII text: the separators are the runs of white
    space (tab, line feed, vertical tab, form feed, carriage return, the
    four separators 28..31 and the blank); no empty token is produced. *)
Definition is_space (c : ascii) : bool :=
  let n := nat_of_ascii c in
  ((9 <=? n)%nat && (n <=? 13)%nat)
  || ((28 <=? n)%nat && (n <=? 31)%nat)
  || (n =? 32)%nat.

Fixpoint split_from (cur : string) (s : string) : list string :=
  match s with
  | EmptyString =>
      match cur with EmptyString => [] | _ => [cur] end
  | String c s' =>
      if is_space c then
        match cur with
        | EmptyString => split_from EmptyString s'
        | _ => cur :: split_from EmptyString s'
        end
      else split_from (cur ++ String c EmptyString) s'
  end.

Definition split (s : string) : list string := split_from EmptyString s.

(* ------------------------------------------------------------------ *)
(** ** bm25.py *)

Module BM25.

Record BM25 : Type := mkBM25 {
  documents : dict (dict Z);
  b : Q;
  k : Q
}.

(** [BM25.__init__(documents, b=None, k=None)]. *)
Definition init (documents : dict (dict Z)) (b k : option Q) : BM25 :=
  {| documents := documents;
     b := match b with None => 0.75%Q | Some b => b end;
     k := match k with None => 1.2%Q | Some k => k end |}.

(** [BM25.get_average_doc_length]: the loop adds [len(v)], the number
    of entries of each document's term dictionary. *)
Definition get_average_doc_length (self : BM25) : result Q :=
  let num_docs := Z.of_nat (List.length (keys (documents self))) in
  let num_items :=
    fold_left (fun num_items kv => num_items + len (snd kv))
              (documents self) 0 in
  true_div num_items num_docs.

(** [BM25.get_doc_length]: [self.documents[doc_id]] raises [KeyError]
    for an unknown document. *)
Definition get_doc_length (self : BM25) (doc_id : string) : result Z :=
  terms <- getitem (documents self) doc_id ;;
  Ok (fold_left (fun doc_len tv => doc_len + snd tv) terms 0).

(** [BM25.get_term_frequency_in_doc]: both subscripts sit inside the
    [try], and [except KeyError] returns 0 for either of them. *)
Definition get_term_frequency_in_doc (self : BM25) (term doc_id : string) : Z :=
  match getitem (documents self) doc_id with
  | Raise _ => 0
  | Ok terms =>
      match getitem terms term with
      | Raise _ => 0
      | Ok value => value
      end
  end.

(** The [df] loop shared by [idf_weight] and [idf_weight_2]. *)
Definition document_frequency (self : BM25) (term : string) : Z :=
  fold_left
    (fun df kv =>
       if get_term_frequency_in_doc self term (fst kv) >? 0 then df + 1 else df)
    (documents self) 0.

(** [BM25.idf_weight]. *)
Definition idf_weight (self : BM25) (term : string) : result R :=
  let df := document_frequency self term in
  let num_docs := Z.of_nat (List.length (keys (documents self))) in
  if negb (df =? 0) then
    q <- true_div num_docs df ;; math_log10 q
  else Ok 0%R.

(** [BM25.idf_weight_2]:
    [math.log1p(1 + (num_docs - df + 0.5)/(df + 0.5))]. *)
Definition idf_weight_2 (self : BM25) (term : string) : result R :=
  let df := document_frequency self term in
  let num_docs := Z.of_nat (List.length (keys (documents self))) in
  let denominator := (inject_Z df + 0.5)%Q in
  if Qeq_bool denominator 0 then Raise ZeroDivisionError
  else math_log1p (1 + (inject_Z num_docs - inject_Z df + 0.5) / denominator)%Q.

(** The body of the loop of [relevance] for one query term.
    [self.b * doc_length/avg_doc_length] is [(b * doc_length) / avg] and
    [idf * counter/denominator] is [(idf * counter) / denominator]; the
    idf is computed before the last division. *)
Definition term_score (self : BM25) (doc_id : string) (doc_length : Z)
  (avg_doc_length : Q) (term : string) : result R :=
  let term_freq := get_term_frequency_in_doc self term doc_id in
  let counter := (inject_Z term_freq * (k self + 1))%Q in
  ratio <- float_truediv (b self * inject_Z doc_length) avg_doc_length ;;
  let denominator := (inject_Z term_freq + k self * (1 - b self + ratio))%Q in
  idf <- idf_weight_2 self term ;;
  if Qeq_bool denominator 0 then Raise ZeroDivisionError
  else Ok (idf * Q2R counter / Q2R denominator)%R.

(** The loop of [relevance] over the query terms. *)
Definition score_terms (self : BM25) (doc_id : string) (doc_length : Z)
  (avg_doc_length : Q) (terms : list string) (score : R) : result R :=
  for_each terms
    (fun score term =>
       term_score <- term_score self doc_id doc_length avg_doc_length term ;;
       Ok (score + term_score)%R)
    score.

(** [BM25.relevance]. *)
Definition relevance (self : BM25) (doc_id query : string) : result R :=
  let terms := split query in
  doc_length <- get_doc_length self doc_id ;;
  avg_doc_length <- get_average_doc_length self ;;
  score_terms self doc_id doc_length avg_doc_length terms 0%R.


End BM25.

(* ------------------------------------------------------------------ *)
(** ** tf_idf.py *)

(** Numbers held by a Python dictionary whose values start as ints and
    are overwritten by floats. *)
Inductive number : Type :=
| Int (z : Z)
| Float (r : R).

Definition to_float (n : number) : R :=
  match n with
  | Int z => IZR z
  | Float r => r
  end.

(** [set(l)], in one fixed order.  The order in which Python enumerates
    a set of strings is not fixed; no statement below depends on it. *)
Definition set_of (l : list string) : list string := nodup string_dec l.

(** [dict.fromkeys(ks, v)]. *)
Definition fromkeys {V} (ks : list string) (v : V) : dict V :=
  fold_left (fun d k => update d k v) ks [].

(** Modelled from the spec: [Utils.add_ele_to_matrix] belongs to the
    module [utils], which is not among the sources.  The matrices are
    sparse maps document id -> term -> value in which only the present
    terms of a document are populated: the call stores [value] at
    [matrix[doc_id][term]] and creates the row of [doc_id] on first use. *)
Definition add_ele_to_matrix {V} (matrix : dict (dict V))
  (doc_id term : string) (value : V) : dict (dict V) :=
  match get matrix doc_id with
  | Some row => update matrix doc_id (update row term value)
  | None => update matrix doc_id [(term, value)]
  end.

Module TFIDF.

Record TFIDF : Type := mkTFIDF {
  documents : dict (dict Z);
  idf_vector : dict R;
  term_doc_matrix : dict (dict R)
}.

(** [TFIDF.get_max_freq_term]. *)
Definition get_max_freq_term (matrix : dict (dict Z)) (doc_id : string)
  : result Z :=
  terms <- getitem matrix doc_id ;;
  Ok (fold_left (fun max_freq kv => if snd kv >? max_freq then snd kv else max_freq)
                terms 0).

(** The vocabulary of [create_idf_matrix]: the union of the key sets of
    the documents. *)
Definition vocabulary_of (matrix : dict (dict Z)) : list string :=
  fold_left (fun vocabulary dt => set_of (vocabulary ++ keys (snd dt))) matrix [].

(** The counting loops of [create_idf_matrix]: for every term of the
    vocabulary, the number of documents that contain it. *)
Definition count_documents (matrix : dict (dict Z)) (vocabulary : list string)
  : result (dict Z) :=
  for_each vocabulary
    (fun idf_matrix term =>
       for_each matrix
         (fun idf_matrix dt =>
            if negb (mem idf_matrix term) && mem (snd dt) term then
              Ok (update idf_matrix term 1)
            else if mem (snd dt) term then
              count <- getitem idf_matrix term ;;
              Ok (update idf_matrix term (count + 1))
            else Ok idf_matrix)
         idf_matrix)
    [].

(** [TFIDF.create_idf_matrix]: the last loop overwrites every count by
    [math.log(num_docs/count, 10)]. *)
Definition create_idf_matrix (matrix : dict (dict Z)) : result (dict R) :=
  let num_docs := Z.of_nat (List.length matrix) in
  counts <- count_documents matrix (vocabulary_of matrix) ;;
  for_each counts
    (fun idf_matrix wc =>
       q <- true_div num_docs (snd wc) ;;
       w <- math_log10 q ;;
       Ok (update idf_matrix (fst wc) w))
    [].

(** [TFIDF.create_tf_matrix].  The denominator [1 + log10(max_freq)] is
    at least 1 once the logarithm of the integer [max_freq] is defined,
    so the division does not raise. *)
Definition create_tf_matrix (matrix : dict (dict Z)) : result (dict (dict R)) :=
  for_each matrix
    (fun tf_matrix kv =>
       max_freq <- get_max_freq_term matrix (fst kv) ;;
       for_each (snd kv)
         (fun tf_matrix wc =>
            lc <- math_log10 (inject_Z (snd wc)) ;;
            lm <- math_log10 (inject_Z max_freq) ;;
            let counter := (1 + lc)%R in
            let denominator := (1 + lm)%R in
            let value := (counter / denominator)%R in
            Ok (add_ele_to_matrix tf_matrix (fst kv) (fst wc) value))
         tf_matrix)
    [].

(** [TFIDF.create_tf_idf_matrix]; the idf vector it stores in [self] is
    returned with the matrix. *)
Definition create_tf_idf_matrix (matrix : dict (dict Z))
  : result (dict R * dict (dict R)) :=
  idf_vector <- create_idf_matrix matrix ;;
  tf_matrix <- create_tf_matrix matrix ;;
  tf_idf_matrix <-
    for_each tf_matrix
      (fun tf_idf_matrix kv =>
         for_each (snd kv)
           (fun tf_idf_matrix wv =>
              idf <- getitem idf_vector (fst wv) ;;
              let value := (snd wv * idf)%R in
              Ok (add_ele_to_matrix tf_idf_matrix (fst kv) (fst wv) value))
           tf_idf_matrix)
      [] ;;
  Ok (idf_vector, tf_idf_matrix).

(** [TFIDF.__init__]: [None] is the absent corpus. *)
Definition init (documents : option (dict (dict Z))) : result TFIDF :=
  match documents with
  | None => Raise (Exception "TFIDF should be initialized with a corpus.")
  | Some documents =>
      im <- create_tf_idf_matrix documents ;;
      Ok {| documents := documents;
            idf_vector := fst im;
            term_doc_matrix := snd im |}
  end.

(** The error of an iterator whose dictionary was resized. *)
Definition changed_size : exception :=
  RuntimeError "dictionary changed size during iteration".

(** The last loop of [create_query_vector].  [for k, v in
    word_dict.items()] reads the live dictionary: every step of the
    iterator first compares the size recorded when the loop started
    ([used]) with the current size and raises [RuntimeError] when they
    differ, also when no item is left.  [items] are the entries not yet
    visited; overwriting the value of the current key leaves them as
    they are. *)
Fixpoint query_vector_loop (idf_vector : dict R) (used : Z)
  (items : list (string * number)) (word_dict : dict number)
  : result (dict number) :=
  if negb (len word_dict =? used) then
    Raise (RuntimeError "dictionary changed size during iteration")
  else
    match items with
    | [] => Ok word_dict
    | (k, v) :: items' =>
        match getitem idf_vector k with
        | Ok idf =>
            query_vector_loop idf_vector used items'
              (update word_dict k (Float (idf * to_float v)))
        | Raise _ =>
            query_vector_loop idf_vector used items' (pop word_dict k)
        end
    end.

(** The counting loop of [create_query_vector]:
    [word_dict[word] += 1]. *)
Definition count_tokens (tokens : list string) (word_dict : dict number)
  : result (dict number) :=
  for_each tokens
    (fun word_dict word =>
       n <- getitem word_dict word ;;
       Ok (update word_dict word
             (match n with Int z => Int (z + 1) | Float r => Float (r + 1) end)))
    word_dict.

(** [TFIDF.create_query_vector]. *)
Definition create_query_vector (self : TFIDF) (query : string)
  : result (dict number) :=
  let tokens := split query in
  let tokens_set := set_of tokens in
  word_dict <- count_tokens tokens (fromkeys tokens_set (Int 0)) ;;
  query_vector_loop (idf_vector self) (len word_dict) word_dict word_dict.

End TFIDF.

(* ------------------------------------------------------------------ *)
(** ** performance.py *)

(** [sorted(l, key=key, reverse=True)]: decreasing keys, elements with
    equal keys in their original order (Python's sort is stable, also
    under [reverse]).  An element is inserted in front of the first
    element whose key does not exceed its own. *)
Section Sorted.

Context {A : Type} (key : A -> Q).

Fixpoint insert_desc (x : A) (l : list A) : list A :=
  match l with
  | [] => [x]
  | y :: l' =>
      if Qle_bool (key y) (key x) then x :: y :: l'
      else y :: insert_desc x l'
  end.

Definition sorted_reverse (l : list A) : list A :=
  fold_right insert_desc [] l.

(** The order of the result: [a] may precede [b]. *)
Definition ge_key (a b : A) : Prop := (key b <= key a)%Q.

End Sorted.

(** [l.index(x)]; [None] stands for the [ValueError] of an absent [x]. *)
Fixpoint index_of (x : string) (l : list string) : option nat :=
  match l with
  | [] => None
  | y :: l' =>
      if String.eqb y x then Some 0%nat
      else option_map S (index_of x l')
  end.

(** The ground truth of one query: the rows of a data frame with the
    columns [docid] and [rel]. *)
Definition DataFrame : Type := list (string * Z).

Definition col_docid (actual : DataFrame) : list string := map fst actual.
Definition col_rel (actual : DataFrame) : list Z := map snd actual.

(** [np.sum] of a list of ints. *)
Definition np_sum_Z (l : list Z) : Z := fold_left Z.add l 0.

(** [np.sum] of a list of scores. *)
Definition np_sum (l : list Q) : Q := fold_left Qplus l 0%Q.

(** A NumPy [float64] scalar: a number, an infinity or not-a-number. *)
Inductive float64 : Type :=
| Finite (q : Q)
| PosInf
| NegInf
| NaN.

(** [x / n] for a NumPy scalar [x] and an int [n].  NumPy does not raise
    on a zero divisor: it warns and yields an infinity, or [nan] for
    [0/0]. *)
Definition np_true_divide (x : Q) (n : Z) : float64 :=
  if n =? 0 then
    match (x ?= 0)%Q with
    | Eq => NaN
    | Gt => PosInf
    | Lt => NegInf
    end
  else Finite (x / inject_Z n)%Q.

Module Performance.

(** [scores[w]] for a key [w] of [scores]. *)
Definition score_of (scores : dict Q) (w : string) : Q :=
  match get scores w with
  | Some v => v
  | None => 0%Q
  end.

(** [sorted(scores, key=scores.get, reverse=True)]: the keys of
    [scores] by decreasing score. *)
Definition ranking (scores : dict Q) : list string :=
  sorted_reverse (score_of scores) (keys scores).

(** [Performance.filter_relevance_by_threshold]. *)
Definition filter_relevance_by_threshold (scores : dict Q) (threshold : Q)
  : dict Q :=
  fold_left
    (fun filtered kv =>
       if negb (Qle_bool (snd kv) threshold)
       then update filtered (fst kv) (snd kv)
       else filtered)
    scores [].

(** The loop of [filter_relevance_by_top_k], [break] included. *)
Fixpoint top_k_loop (scores : dict Q) (top_k : Z) (ws : list string)
  (index : Z) (filtered : dict Q) : dict Q :=
  match ws with
  | [] => filtered
  | w :: ws' =>
      if index <? top_k then
        top_k_loop scores top_k ws' (index + 1)
          (update filtered w (score_of scores w))
      else filtered
  end.

(** [Performance.filter_relevance_by_top_k]. *)
Definition filter_relevance_by_top_k (scores : dict Q) (top_k : Z) : dict Q :=
  top_k_loop scores top_k (ranking scores) 0 [].

(** [Performance.filter_ranked_list]. *)
Definition filter_ranked_list (scores : dict Q) (top_k : Z) (threshold : Q)
  : dict Q :=
  let total_retrieved := filter_relevance_by_threshold scores threshold in
  let total_retrieved :=
    if top_k >? 0 then filter_relevance_by_top_k scores top_k
    else total_retrieved in
  total_retrieved.

(** [actual_relevance[actual_doc_ids.index(docs)] == 1] inside
    [try ... except ValueError: pass]; [None] is the skipped document.
    Both lists are columns of one data frame, so the position found in
    the first exists in the second. *)
Definition relevant_label (actual_doc_ids : list string)
  (actual_relevance : list Z) (docs : string) : option bool :=
  match index_of docs actual_doc_ids with
  | Some i => Some (nth i actual_relevance 0 =? 1)
  | None => None
  end.

(** The loop shared by [get_true_positives] and [get_false_negatives]:
    [actual_doc_ids.index(doc)] raising [ValueError] is caught and the
    document skipped; [None] is the [IndexError], which is not caught, of
    a relevance list shorter than the position found. *)
Fixpoint count_relevant (docs : list string) (actual_doc_ids : list string)
  (actual_relevance : list Z) (count : Z) : option Z :=
  match docs with
  | [] => Some count
  | doc :: docs' =>
      match index_of doc actual_doc_ids with
      | None => count_relevant docs' actual_doc_ids actual_relevance count
      | Some i =>
          match nth_error actual_relevance i with
          | None => None
          | Some r =>
              count_relevant docs' actual_doc_ids actual_relevance
                (if r >? 0 then count + 1 else count)
          end
      end
  end.

(** [Performance.get_true_positives]. *)
Definition get_true_positives (total_retrieved : dict Q)
  (actual_doc_ids : list string) (actual_relevance : list Z) : option Z :=
  count_relevant (keys total_retrieved) actual_doc_ids actual_relevance 0.

(** [Performance.get_false_negatives]. *)
Definition get_false_negatives (total_pred_negative : dict Q)
  (actual_doc_ids : list string) (actual_relevance : list Z) : option Z :=
  count_relevant (keys total_pred_negative) actual_doc_ids actual_relevance 0.

(** [Performance.filter_pred_negative]. *)
Definition filter_pred_negative (scores : dict Q) : dict Q :=
  fold_left
    (fun filtered kv =>
       if Qeq_bool (snd kv) 0
       then update filtered (fst kv) (snd kv)
       else filtered)
    scores [].

End Performance.

Import Performance.

Module AveragePrecision.

(** [AveragePrecision.mean_avg_precision]. *)
Definition mean_avg_precision (precision_scores : dict Q) : result Q :=
  let map_score := 0%Q in
  let len_prec := Z.of_nat (List.length (keys precision_scores)) in
  if len_prec >? 0 then
    let map_score :=
      fold_left (fun map_score kv => map_score + snd kv)%Q
                precision_scores map_score in
    float_div map_score len_prec
  else Ok 0%Q.

(** The ranking loop of [avg_precision_score]; [index] is the counter
    of [enumerate]. *)
Fixpoint precision_loop (actual_doc_ids : list string)
  (actual_relevance : list Z) (ranked : list string) (index : Z)
  (count : Z) (precision_arr : list Q) : result (list Q) :=
  match ranked with
  | [] => Ok precision_arr
  | docs :: ranked' =>
      match relevant_label actual_doc_ids actual_relevance docs with
      | Some true =>
          let count := count + 1 in
          prec <- true_div count (index + 1) ;;
          precision_loop actual_doc_ids actual_relevance ranked' (index + 1)
            count (precision_arr ++ [prec])
      | _ =>
          precision_loop actual_doc_ids actual_relevance ranked' (index + 1)
            count precision_arr
      end
  end.

(** [AveragePrecision.avg_precision_score]. *)
Definition avg_precision_score (predicted : dict Q) (actual : DataFrame)
  (threshold : Q) (top_k : Z) : result Q :=
  let total_retrieved := filter_ranked_list predicted top_k threshold in
  let actual_doc_ids := col_docid actual in
  let actual_relevance := col_rel actual in
  precision_arr <-
    precision_loop actual_doc_ids actual_relevance (ranking total_retrieved)
      0 0 [] ;;
  if Z.of_nat (List.length precision_arr) >? 0 then
    let ap_score := fold_left Qplus precision_arr 0%Q in
    float_div ap_score (Z.of_nat (List.length precision_arr))
  else Ok 0%Q.


(** [AveragePrecision.add_precision_score]. *)
Definition add_precision_score (precision_scores : dict Q) (q : string)
  (precision : Q) : dict Q :=
  update precision_scores q precision.

End AveragePrecision.

Module ReciprocalRank.

(** The loop of [ReciprocalRank.rank], left at the first relevant
    document. *)
Fixpoint rank_loop (actual_doc_ids : list string) (actual_relevance : list Z)
  (ranked : list string) (index : Z) : result Q :=
  match ranked with
  | [] => Ok 0%Q
  | docs :: ranked' =>
      match relevant_label actual_doc_ids actual_relevance docs with
      | Some true => true_div 1 (index + 1)
      | _ => rank_loop actual_doc_ids actual_relevance ranked' (index + 1)
      end
  end.

(** [ReciprocalRank.rank]. *)
Definition rank (predicted : dict Q) (actual : DataFrame)
  (threshold : Q) (top_k : Z) : result Q :=
  let total_retrieved := filter_ranked_list predicted top_k threshold in
  rank_loop (col_docid actual) (col_rel actual) (ranking total_retrieved) 0.

(** [ReciprocalRank.mean_reciprocal_rank]. *)
Definition mean_reciprocal_rank (ranks : list Q) : float64 :=
  let num_queries := Z.of_nat (List.length ranks) in
  np_true_divide (np_sum ranks) num_queries.

(** [ReciprocalRank.add_rank]. *)
Definition add_rank (ranks : list Q) (rank : Q) : list Q := ranks ++ [rank].

End ReciprocalRank.

Module Precision.

(** [Precision.r_prec].  [num_relevant] is a NumPy integer, so the
    quotient is a NumPy scalar. *)
Definition r_prec (predicted : dict Q) (actual : DataFrame)
  (threshold : Q) (top_k : Z) : float64 :=
  let total_retrieved := filter_ranked_list predicted top_k threshold in
  let actual_doc_ids := col_docid actual in
  let actual_relevance := col_rel actual in
  let counter :=
    fold_left
      (fun counter docs =>
         match relevant_label actual_doc_ids actual_relevance docs with
         | Some true => counter + 1
         | _ => counter
         end)
      (ranking total_retrieved) 0 in
  let num_relevant := np_sum_Z actual_relevance in
  if num_relevant >? 0 then np_true_divide (inject_Z counter) num_relevant
  else Finite 0%Q.

(** [Precision.mean_r_prec]. *)
Definition mean_r_prec (scores : list Q) : float64 :=
  let num_r_prec := Z.of_nat (List.length scores) in
  np_true_divide (np_sum scores) num_r_prec.

End Precision.

(** The batch evaluations.  [Utils.get_doc_and_relevance_by_query]
    belongs to the module [utils], which is not among the sources: it is a
    parameter, as is the type of the labels it reads, and it may raise.
    The accumulator of the object is passed in and returned with the
    score; [print] is left out. *)
Section Batch.

Variable TrueLabels : Type.
Variable get_doc_and_relevance_by_query : string -> TrueLabels -> result DataFrame.

(** [AveragePrecision.calculate_map]: a [KeyError] inside the [try], the
    one of [predicted_scores[q]] in the first place, skips the query. *)
Definition calculate_map (precision_scores : dict Q) (queries : list string)
  (true_labels : TrueLabels) (predicted_scores : dict (dict Q)) (top_k : Z)
  (threshold : Q) : result (dict Q * Q) :=
  precision_scores <-
    for_each queries
      (fun precision_scores q =>
         y_true <- get_doc_and_relevance_by_query q true_labels ;;
         match
           (y_pred <- getitem predicted_scores q ;;
            AveragePrecision.avg_precision_score y_pred y_true threshold top_k)
         with
         | Ok precision =>
             Ok (AveragePrecision.add_precision_score precision_scores q precision)
         | Raise KeyError => Ok precision_scores
         | Raise e => Raise e
         end)
      precision_scores ;;
  map_score <- AveragePrecision.mean_avg_precision precision_scores ;;
  Ok (precision_scores, map_score).

(** [ReciprocalRank.calculate_mrr]. *)
Definition calculate_mrr (ranks : list Q) (queries : list string)
  (true_labels : TrueLabels) (predicted_scores : dict (dict Q)) (top_k : Z)
  (threshold : Q) : result (list Q * float64) :=
  ranks <-
    for_each queries
      (fun ranks q =>
         y_true <- get_doc_and_relevance_by_query q true_labels ;;
         match
           (y_pred <- getitem predicted_scores q ;;
            ReciprocalRank.rank y_pred y_true threshold top_k)
         with
         | Ok reciprocal_rank => Ok (ReciprocalRank.add_rank ranks reciprocal_rank)
         | Raise KeyError => Ok ranks
         | Raise e => Raise e
         end)
      ranks ;;
  Ok (ranks, ReciprocalRank.mean_reciprocal_rank ranks).

End Batch.

(* ------------------------------------------------------------------ *)
(** ** The formulas of the specification, and the scenarios *)

(** Section 4.1, [average_document_length]: the sum of all term counts
    across all documents divided by the document count. *)
Definition spec_total_term_count (documents : dict (dict Z)) : Z :=
  fold_left (fun total kv => fold_left (fun t tv => t + snd tv) (snd kv) total)
            documents 0.

Definition spec_average_document_length (documents : dict (dict Z)) : Q :=
  (inject_Z (spec_total_term_count documents)
   / inject_Z (Z.of_nat (List.length documents)))%Q.

(** Section 4.1, probabilistic idf:
    [log(1 + (N - df + 0.5) / (df + 0.5))], natural logarithm. *)
Definition spec_idf_probabilistic (N df : Z) : R :=
  ln (1 + (IZR N - IZR df + 0.5) / (IZR df + 0.5))%R.

(** Section 8: corpus [{d1: {a:2, b:1}, d2: {a:1, b:2, c:1}}]. *)
Definition corpus_ab : dict (dict Z) :=
  [ ("d1", [("a", 2); ("b", 1)]);
    ("d2", [("a", 1); ("b", 2); ("c", 1)]) ].

(** Section 8: ground truth of [q1] and the predicted scores. *)
Definition actual_q1 : DataFrame := [("d1", 1); ("d2", 0); ("d3", 1)].

Definition predicted_q1 : dict Q :=
  [("d1", 0.9%Q); ("d2", 0.5%Q); ("d3", 0.1%Q)].

(** A score map of six documents, all below the threshold 10. *)
Definition six_scores : dict Q :=
  [("d1", 0.3%Q); ("d2", 2%Q); ("d3", 0.3%Q); ("d4", 1.5%Q); ("d5", 0%Q);
   ("d6", 0.7%Q)].

(** A one-document corpus and the engine built from it. *)
Definition corpus_a : dict (dict Z) := [("d1", [("a", 1)])].

(** The inner loop of [count_documents] for one term. *)
Definition count_term (matrix : dict (dict Z)) (term : string)
  (idf_matrix : dict Z) : result (dict Z) :=
  for_each matrix
    (fun idf_matrix dt =>
       if negb (mem idf_matrix term) && mem (snd dt) term then
         Ok (update idf_matrix term 1)
       else if mem (snd dt) term then
         count <- getitem idf_matrix term ;;
         Ok (update idf_matrix term (count + 1))
       else Ok idf_matrix)
    idf_matrix.

(** The last loop of [create_idf_matrix]. *)
Definition weigh_counts (num_docs : Z) (counts : dict Z) (idf_matrix : dict R)
  : result (dict R) :=
  for_each counts
    (fun idf_matrix wc =>
       q <- true_div num_docs (snd wc) ;;
       w <- math_log10 q ;;
       Ok (update idf_matrix (fst wc) w))
    idf_matrix.

(** A corpus that stores a zero count. *)
Definition corpus_zero : dict (dict Z) := [("d1", [("a", 0)])].

(** The predictions of a batch that scored the query [q1] only, and a
    lookup of the ground truth that answers [actual_q1] for every query. *)
Definition predictions_q1 : dict (dict Q) := [("q1", predicted_q1)].

Definition labels_q1 (q : string) (true_labels : unit) : result DataFrame :=
  Ok actual_q1.

(** A precision value: positive and at most 1. *)
Definition unit_interval (q : Q) : Prop := (0 < q)%Q /\ (q <= 1)%Q.

(** Predicted scores that rank the two relevant documents of [q1] first. *)
Definition predicted_perfect : dict Q :=
  [("d1", 0.9%Q); ("d2", 0.1%Q); ("d3", 0.5%Q)].

(** The number of documents of [matrix] whose term dictionary has the
    key [term]. *)
Definition containing (matrix : dict (dict Z)) (term : string) : Z :=
  Z.of_nat (List.length (filter (fun dt => mem (snd dt) term) matrix)).

(** Every count stored in the corpus is at least 1. *)
Definition positive_counts (matrix : dict (dict Z)) : Prop :=
  forall d terms t c, In (d, terms) matrix -> In (t, c) terms -> 1 <= c.

(** The setting in which BM25 scores are computed: a positive saturation
    [k], a length normalisation [b] in [0, 1), counts that are not
    negative and a corpus in which some document has a term. *)
Definition scoring_setting (self : BM25.BM25) : Prop :=
  (0 < BM25.k self)%Q
  /\ ((0 <= BM25.b self)%Q /\ (BM25.b self < 1)%Q)
  /\ (forall d terms t c,
        In (d, terms) (BM25.documents self) -> In (t, c) terms -> 0 <= c)
  /\ (exists d terms, In (d, terms) (BM25.documents self) /\ terms <> []).

(** The scorer over the corpus of section 8 with the default parameters. *)
Definition bm25_ab : BM25.BM25 := BM25.init corpus_ab None None.

(** The engine built from the one-document corpus. *)
Definition engine_a : TFIDF.TFIDF :=
  {| TFIDF.documents := corpus_a;
     TFIDF.idf_vector := [("a", (ln (Q2R (inject_Z 1 / inject_Z 1)) / ln 10)%R)];
     TFIDF.term_doc_matrix :=
       [("d1",
         [("a",
           ((1 + ln (Q2R (inject_Z 1)) / ln 10) / (1 + ln (Q2R (inject_Z 1)) / ln 10)
            * (ln (Q2R (inject_Z 1 / inject_Z 1)) / ln 10))%R)])] |}.

(* ------------------------------------------------------------------ *)
(** ** Facts about dictionaries *)

Section DictFacts.

Context {V : Type}.
Implicit Types (d : dict V) (k : string) (v : V).

Lemma get_None_iff d k : get d k = None <-> ~ In k (keys d).
Proof.
  induction d as [|[k' v'] d IH]; simpl.
  - tauto.
  - destruct (String.eqb_spec k' k) as [->|Hne].
    + split; [discriminate | intros H; exfalso; apply H; now left].
    + rewrite IH. split; [intros H [E|I]; [congruence | auto] | tauto].
Qed.

Lemma get_Some_In d k v : get d k = Some v -> In (k, v) d.
Proof.
  induction d as [|[k' v'] d IH]; simpl; [discriminate|].
  destruct (String.eqb_spec k' k) as [->|Hne].
  - intros [= ->]. now left.
  - intros H. right. auto.
Qed.

Lemma get_wf_In d k v : wf d -> In (k, v) d -> get d k = Some v.
Proof.
  unfold wf. induction d as [|[k' v'] d IH]; simpl; [tauto|].
  intros Hnd [E|I].
  - injection E as -> ->. now rewrite String.eqb_refl.
  - inversion Hnd as [|? ? Hnot Hnd']; subst.
    destruct (String.eqb_spec k' k) as [->|Hne].
    + exfalso. apply Hnot. change k with (fst (k, v)). now apply in_map.
    + auto.
Qed.

Lemma In_keys_get d k : In k (keys d) -> exists v, get d k = Some v.
Proof.
  intros H. destruct (get d k) as [v|] eqn:E; [eauto|].
  apply get_None_iff in E. contradiction.
Qed.

Lemma update_fresh d k v : ~ In k (keys d) -> update d k v = (d ++ [(k, v)])%list.
Proof.
  induction d as [|[k' v'] d IH]; simpl; [reflexivity|].
  intros H. destruct (String.eqb_spec k' k) as [->|Hne].
  - exfalso. apply H. now left.
  - f_equal. apply IH. tauto.
Qed.

Lemma keys_update_present d k v : In k (keys d) -> keys (update d k v) = keys d.
Proof.
  induction d as [|[k' v'] d IH]; simpl; [tauto|].
  intros H. destruct (String.eqb_spec k' k) as [->|Hne]; simpl.
  - reflexivity.
  - f_equal. apply IH. destruct H; [contradiction | assumption].
Qed.

Lemma In_keys_update d k v k0 :
  In k0 (keys (update d k v)) <-> k0 = k \/ In k0 (keys d).
Proof.
  induction d as [|[k' v'] d IH]; simpl.
  - intuition.
  - destruct (String.eqb_spec k' k) as [->|Hne]; simpl.
    + intuition.
    + rewrite IH. intuition.
Qed.

Lemma get_update d k v k0 :
  get (update d k v) k0 = if String.eqb k k0 then Some v else get d k0.
Proof.
  induction d as [|[k' v'] d IH]; simpl.
  - reflexivity.
  - destruct (String.eqb_spec k' k) as [->|Hne]; simpl.
    + destruct (String.eqb_spec k k0); reflexivity.
    + rewrite IH.
      destruct (String.eqb_spec k' k0) as [->|Hne0]; [|reflexivity].
      destruct (String.eqb_spec k k0); [congruence | reflexivity].
Qed.

Lemma length_pop_present d k :
  In k (keys d) -> S (List.length (pop d k)) = List.length d.
Proof.
  induction d as [|[k' v'] d IH]; simpl; [tauto|].
  intros H. destruct (String.eqb_spec k' k) as [->|Hne]; simpl.
  - reflexivity.
  - f_equal. apply IH. destruct H; [contradiction | assumption].
Qed.

End DictFacts.

Lemma length_keys {V} (d : dict V) : List.length (keys d) = List.length d.
Proof. apply length_map. Qed.

(* ------------------------------------------------------------------ *)
(** ** bm25.py: term statistics *)

Section BM25Facts.

Import BM25.

Lemma Q2R_inject_Z (z : Z) : Q2R (inject_Z z) = IZR z.
Proof. unfold Q2R, inject_Z; simpl. lra. Qed.

Lemma fold_count_bounds {A} (p : A -> bool) (l : list A) (acc : Z) :
  acc <= fold_left (fun df x => if p x then df + 1 else df) l acc
      <= acc + Z.of_nat (List.length l).
Proof.
  revert acc. induction l as [|x l IH]; intros acc; simpl List.length; simpl fold_left.
  - lia.
  - destruct (p x); specialize (IH (acc + 1)) as IH1; specialize (IH acc) as IH0; lia.
Qed.

(** The document frequency lies between 0 and the number of documents. *)
Lemma document_frequency_bounds (self : BM25) (term : string) :
  0 <= document_frequency self term
    <= Z.of_nat (List.length (keys (documents self))).
Proof.
  unfold document_frequency. rewrite length_keys.
  pose proof (fold_count_bounds
    (fun kv : string * dict Z => get_term_frequency_in_doc self term (fst kv) >? 0)
    (documents self) 0) as H.
  simpl in H. exact H.
Qed.

(** On a non-empty corpus the average length is defined; its numerator
    is the number of dictionary entries, not the sum of the counts. *)
Lemma get_average_doc_length_nonempty (self : BM25) :
  documents self <> [] ->
  get_average_doc_length self =
  Ok (inject_Z (fold_left (fun n kv => (n + len (snd kv))%Z) (documents self) 0%Z)
      / inject_Z (Z.of_nat (List.length (keys (documents self)))))%Q.
Proof.
  intros Hne. unfold get_average_doc_length, true_div.
  destruct (documents self) as [|kv d]; [congruence|].
  simpl List.length. rewrite Nat2Z.inj_succ.
  destruct (Z.eqb_spec (Z.succ (Z.of_nat (List.length (keys d)))) 0); [lia|].
  reflexivity.
Qed.

(** What [idf_weight_2] computes for every corpus and term: it never
    raises, and its value is the logarithm of
    [2 + (N - df + 0.5)/(df + 0.5)]. *)
Lemma idf_weight_2_value (self : BM25) (term : string) :
  let N := Z.of_nat (List.length (keys (documents self))) in
  let df := document_frequency self term in
  idf_weight_2 self term =
  Ok (ln (1 + Q2R (1 + (inject_Z N - inject_Z df + 0.5) / (inject_Z df + 0.5))))%R
  /\ (Q2R (1 + (inject_Z N - inject_Z df + 0.5) / (inject_Z df + 0.5))
      = 1 + (IZR N - IZR df + 0.5) / (IZR df + 0.5))%R
  /\ (0 < (IZR N - IZR df + 0.5) / (IZR df + 0.5))%R.
Proof.
  intros N df.
  pose proof (document_frequency_bounds self term) as [Hlo Hhi].
  fold N df in Hlo, Hhi.
  assert (HdfR : (0 <= IZR df)%R) by (apply IZR_le in Hlo; exact Hlo).
  assert (HNR : (IZR df <= IZR N)%R) by (apply IZR_le; exact Hhi).
  assert (Hden : (Q2R (inject_Z df + 0.5) = IZR df + 0.5)%R).
  { rewrite Q2R_plus, Q2R_inject_Z. reflexivity. }
  assert (Hden0 : ~ (inject_Z df + 0.5 == 0)%Q).
  { intros E. apply Qeq_eqR in E. rewrite Hden in E.
    replace (Q2R 0) with 0%R in E by (unfold Q2R; simpl; lra). lra. }
  assert (Hval : (Q2R (1 + (inject_Z N - inject_Z df + 0.5) / (inject_Z df + 0.5))
                  = 1 + (IZR N - IZR df + 0.5) / (IZR df + 0.5))%R).
  { rewrite Q2R_plus, Q2R_div by exact Hden0.
    rewrite Hden, Q2R_plus, Q2R_minus, !Q2R_inject_Z.
    change (Q2R 1) with (Q2R (inject_Z 1)). rewrite Q2R_inject_Z. reflexivity. }
  assert (Hpos : (0 < (IZR N - IZR df + 0.5) / (IZR df + 0.5))%R).
  { apply Rdiv_lt_0_compat; lra. }
  split; [|split; assumption].
  unfold idf_weight_2. fold N df.
  destruct (Qeq_bool (inject_Z df + 0.5) 0) eqn:Eq.
  - apply Qeq_bool_iff in Eq. contradiction.
  - unfold math_log1p.
    destruct (Qle_bool _ (-1)) eqn:El; [|reflexivity].
    apply Qle_bool_iff, Qle_Rle in El. rewrite Hval in El.
    replace (Q2R (-1)) with (-1)%R in El by (unfold Q2R; simpl; lra). lra.
Qed.

End BM25Facts.

(** C1. On the corpus [{d1: {a:2, b:1}, d2: {a:1, b:2, c:1}}] the
    average-document-length computation returns 5/2, the number of
    dictionary entries (2 + 3) over the number of documents, whereas the
    sum of all term counts (3 + 4) over the number of documents is 7/2. *)
Theorem get_average_doc_length_counts_entries :
  BM25.get_average_doc_length (BM25.init corpus_ab None None) = Ok (5 # 2)%Q
  /\ (spec_average_document_length corpus_ab == 7 # 2)%Q
  /\ ~ (5 # 2 == spec_average_document_length corpus_ab)%Q.
Proof.
  split; [reflexivity|]. split; [reflexivity|].
  intros H. vm_compute in H. discriminate H.
Qed.

(** C2. For the term [c] of the corpus
    [{d1: {a:2, b:1}, d2: {a:1, b:2, c:1}}] (N = 2, df = 1),
    [idf_weight_2] returns the natural logarithm of 3, that is of
    [2 + (N - df + 0.5)/(df + 0.5)], whereas
    [log(1 + (N - df + 0.5)/(df + 0.5))] is the logarithm of 2. *)
Theorem idf_weight_2_adds_one_twice :
  exists idf : R,
    BM25.idf_weight_2 (BM25.init corpus_ab None None) "c" = Ok idf
    /\ idf = ln 3
    /\ spec_idf_probabilistic 2 1 = ln 2
    /\ idf <> spec_idf_probabilistic 2 1.
Proof.
  pose proof (idf_weight_2_value (BM25.init corpus_ab None None) "c") as H.
  cbv zeta in H. destruct H as (Hcode & Hval & _).
  change (BM25.document_frequency (BM25.init corpus_ab None None) "c") with 1 in *.
  change (Z.of_nat (List.length (keys (BM25.documents (BM25.init corpus_ab None None)))))
    with 2 in *.
  assert (Hspec : spec_idf_probabilistic 2 1 = ln 2).
  { unfold spec_idf_probabilistic. f_equal. lra. }
  eexists. split; [exact Hcode|].
  assert (Hcode3 : (ln (1 + Q2R (1 + (inject_Z 2 - inject_Z 1 + 0.5) / (inject_Z 1 + 0.5)))
                    = ln 3)%R).
  { f_equal. rewrite Hval. lra. }
  split; [exact Hcode3|]. split; [exact Hspec|].
  rewrite Hcode3, Hspec. intros E.
  apply ln_inv in E; lra.
Qed.

(** C10. For every term and every document identifier absent from the
    corpus, [get_term_frequency_in_doc] returns 0, while [get_doc_length]
    on the same identifier raises [KeyError]. *)
Theorem get_term_frequency_in_doc_missing_doc :
  forall (self : BM25.BM25) (term doc_id : string),
    ~ In doc_id (keys (BM25.documents self)) ->
    BM25.get_term_frequency_in_doc self term doc_id = 0
    /\ BM25.get_doc_length self doc_id = Raise KeyError.
Proof.
  intros self term doc_id Habsent.
  apply get_None_iff in Habsent.
  unfold BM25.get_term_frequency_in_doc, BM25.get_doc_length, getitem.
  rewrite Habsent. split; reflexivity.
Qed.

Lemma get_term_frequency_in_doc_missing_doc_witness :
  ~ In "d9" (keys (BM25.documents (BM25.init corpus_ab None None)))
  /\ BM25.get_term_frequency_in_doc (BM25.init corpus_ab None None) "a" "d9" = 0
  /\ BM25.get_doc_length (BM25.init corpus_ab None None) "d9" = Raise KeyError.
Proof.
  assert (H : ~ In "d9" (keys (BM25.documents (BM25.init corpus_ab None None)))).
  { simpl. intros [E|[E|[]]]; discriminate E. }
  split; [exact H|].
  exact (get_term_frequency_in_doc_missing_doc
           (BM25.init corpus_ab None None) "a" "d9" H).
Defined.

(** A term absent from a known document is absorbed the same way. *)
Lemma get_term_frequency_in_doc_missing_term (self : BM25.BM25)
  (term doc_id : string) (terms : dict Z) :
  get (BM25.documents self) doc_id = Some terms ->
  get terms term = None ->
  BM25.get_term_frequency_in_doc self term doc_id = 0.
Proof.
  intros Hd Ht. unfold BM25.get_term_frequency_in_doc, getitem.
  now rewrite Hd, Ht.
Qed.

(* ------------------------------------------------------------------ *)
(** ** tf_idf.py: construction and query vectors *)

Section TFIDFFacts.

Import TFIDF.

Lemma init_corpus_a : init (Some corpus_a) = Ok engine_a.
Proof. reflexivity. Qed.

Lemma query_vector_loop_eq (idf_vector : dict R) (used : Z)
  (items : list (string * number)) (word_dict : dict number) :
  query_vector_loop idf_vector used items word_dict =
  if negb (len word_dict =? used) then Raise changed_size
  else
    match items with
    | [] => Ok word_dict
    | (k, v) :: items' =>
        match getitem idf_vector k with
        | Ok idf =>
            query_vector_loop idf_vector used items'
              (update word_dict k (Float (idf * to_float v)))
        | Raise _ =>
            query_vector_loop idf_vector used items' (pop word_dict k)
        end
    end.
Proof. destruct items; reflexivity. Qed.

(** Once the size of the dictionary differs from the recorded one, the
    next step of the iterator raises, whatever is left to visit. *)
Lemma query_vector_loop_size_changed idf_vector used items word_dict :
  len word_dict <> used ->
  query_vector_loop idf_vector used items word_dict = Raise changed_size.
Proof.
  intros H. rewrite query_vector_loop_eq.
  destruct (Z.eqb_spec (len word_dict) used); [contradiction | reflexivity].
Qed.

(** If one of the entries still to visit has a key outside the idf
    vector, the loop ends in [RuntimeError]: the entry is popped and the
    following step of the iterator sees the smaller dictionary. *)
Lemma query_vector_loop_unknown idf_vector used :
  forall items word_dict,
    len word_dict = used ->
    (forall k, In k (keys items) -> In k (keys word_dict)) ->
    (exists k, In k (keys items) /\ get idf_vector k = None) ->
    query_vector_loop idf_vector used items word_dict = Raise changed_size.
Proof.
  induction items as [|[k v] items IH]; intros word_dict Hlen Hsub [k0 [Hin Hnone]].
  - destruct Hin.
  - rewrite query_vector_loop_eq.
    destruct (Z.eqb_spec (len word_dict) used) as [_|Hne]; [|reflexivity].
    simpl negb. cbv iota.
    assert (Hk : In k (keys word_dict)) by (apply Hsub; now left).
    unfold getitem. destruct (get idf_vector k) as [idf|] eqn:Eg.
    + apply IH.
      * unfold len in *. rewrite <- (length_keys (update _ _ _)).
        rewrite keys_update_present by exact Hk.
        rewrite length_keys. exact Hlen.
      * intros k1 Hk1. rewrite keys_update_present by exact Hk.
        apply Hsub. now right.
      * destruct Hin as [E|Hin].
        -- simpl in E. subst k0. congruence.
        -- exists k0. auto.
    + apply query_vector_loop_size_changed.
      pose proof (length_pop_present word_dict k Hk) as Hpop.
      unfold len in *. lia.
Qed.

Lemma In_keys_fromkeys {V} (ks : list string) (v : V) (k : string) :
  In k (keys (fromkeys ks v)) <-> In k ks.
Proof.
  unfold fromkeys.
  enough (G : forall d : dict V,
            In k (keys (fold_left (fun d k => update d k v) ks d))
            <-> In k ks \/ In k (keys d)).
  { rewrite G. simpl. tauto. }
  induction ks as [|k' ks IH]; intros d; simpl.
  - tauto.
  - rewrite IH, In_keys_update. intuition.
Qed.

(** The counting loop never raises on a dictionary that holds every
    token; it leaves the keys as they are and adds to each integer entry
    the number of occurrences of its key. *)
Lemma count_tokens_keys (tokens : list string) :
  forall word_dict,
    (forall t, In t tokens -> In t (keys word_dict)) ->
    exists word_dict',
      count_tokens tokens word_dict = Ok word_dict'
      /\ keys word_dict' = keys word_dict
      /\ (forall k z,
            get word_dict k = Some (Int z) ->
            get word_dict' k
            = Some (Int (z + Z.of_nat (count_occ string_dec tokens k)))).
Proof.
  unfold count_tokens.
  induction tokens as [|t tokens IH]; intros word_dict Hall; simpl.
  - exists word_dict. split; [reflexivity|]. split; [reflexivity|].
    intros k z Hk. now rewrite Z.add_0_r.
  - assert (Ht : In t (keys word_dict)) by (apply Hall; now left).
    destruct (In_keys_get word_dict t Ht) as [n Hn].
    unfold getitem. rewrite Hn. simpl.
    set (n' := match n with Int z => Int (z + 1) | Float r => Float (r + 1) end).
    destruct (IH (update word_dict t n')) as (wd' & Hwd' & Hkeys & Hget).
    + intros t' Ht'. rewrite keys_update_present by exact Ht.
      apply Hall. now right.
    + exists wd'. split; [exact Hwd'|]. split.
      * rewrite Hkeys. now apply keys_update_present.
      * intros k z Hk.
        destruct (string_dec t k) as [->|Hne].
        -- rewrite (Hget k (z + 1)).
           ++ f_equal. f_equal. lia.
           ++ rewrite get_update, String.eqb_refl. unfold n'.
              rewrite Hn in Hk. now injection Hk as ->.
        -- apply Hget. rewrite get_update.
           destruct (String.eqb_spec t k); [contradiction | exact Hk].
Qed.



End TFIDFFacts.

(** C5. Construction with an absent corpus ([None]) raises the
    initialization error; construction with the empty corpus succeeds
    and yields the engine whose idf vector and matrix are empty. *)
Theorem TFIDF_init_requires_only_presence :
  TFIDF.init None = Raise (Exception "TFIDF should be initialized with a corpus.")
  /\ TFIDF.init (Some []) = Ok (TFIDF.mkTFIDF [] [] []).
Proof. split; reflexivity. Qed.

(** C5, the claim as stated fails at the empty corpus: its construction
    raises nothing. *)
Lemma TFIDF_init_empty_corpus_does_not_fail :
  ~ (exists e : exception, TFIDF.init (Some []) = Raise e).
Proof. intros [e H]. discriminate H. Qed.

(** C6. Whenever some token of the query is absent from the idf
    vocabulary, [create_query_vector] raises [RuntimeError]: the token is
    popped from the dictionary that the loop is iterating over. *)
Theorem create_query_vector_unknown_token_raises :
  forall (self : TFIDF.TFIDF) (query token : string),
    In token (split query) ->
    get (TFIDF.idf_vector self) token = None ->
    TFIDF.create_query_vector self query
    = Raise (RuntimeError "dictionary changed size during iteration").
Proof.
  intros self query token Hin Hnone.
  unfold TFIDF.create_query_vector.
  destruct (count_tokens_keys (split query) (fromkeys (set_of (split query)) (Int 0)))
    as (word_dict & Hcount & Hkeys & _).
  { intros t Ht. apply In_keys_fromkeys. unfold set_of. now apply nodup_In. }
  rewrite Hcount. simpl bind.
  apply query_vector_loop_unknown.
  - reflexivity.
  - auto.
  - exists token. split; [|exact Hnone].
    rewrite Hkeys. apply In_keys_fromkeys. unfold set_of. now apply nodup_In.
Qed.

Lemma create_query_vector_unknown_token_raises_witness :
  In "b" (split "b")
  /\ get (TFIDF.idf_vector engine_a) "b" = None
  /\ TFIDF.create_query_vector engine_a "b"
     = Raise (RuntimeError "dictionary changed size during iteration").
Proof.
  assert (Hin : In "b" (split "b")) by (left; reflexivity).
  assert (Hnone : get (TFIDF.idf_vector engine_a) "b" = None) by reflexivity.
  split; [exact Hin|]. split; [exact Hnone|].
  exact (create_query_vector_unknown_token_raises engine_a "b" "b" Hin Hnone).
Defined.

(* ------------------------------------------------------------------ *)
(** ** performance.py: sorting and filtering *)

Section SortedFacts.

Context {A : Type} (key : A -> Q).

Lemma insert_desc_perm (x : A) (l : list A) :
  Permutation (x :: l) (insert_desc key x l).
Proof.
  induction l as [|y l IH]; simpl.
  - apply Permutation_refl.
  - destruct (Qle_bool (key y) (key x)).
    + apply Permutation_refl.
    + apply perm_trans with (y :: x :: l); [apply perm_swap|].
      now apply perm_skip.
Qed.

Lemma sorted_reverse_perm (l : list A) : Permutation l (sorted_reverse key l).
Proof.
  induction l as [|x l IH]; simpl.
  - apply perm_nil.
  - apply perm_trans with (x :: sorted_reverse key l).
    + now apply perm_skip.
    + apply insert_desc_perm.
Qed.

Lemma insert_desc_sorted (x : A) (l : list A) :
  StronglySorted (ge_key key) l ->
  StronglySorted (ge_key key) (insert_desc key x l).
Proof.
  induction l as [|y l IH]; intros Hs; simpl.
  - constructor; constructor.
  - inversion Hs as [|? ? Hs' Hall]; subst.
    destruct (Qle_bool (key y) (key x)) eqn:E.
    + apply Qle_bool_iff in E.
      constructor; [exact Hs|].
      constructor; [exact E|].
      eapply Forall_impl; [|exact Hall].
      intros z Hz. unfold ge_key in *. now apply Qle_trans with (key y).
    + assert (Hlt : (key x <= key y)%Q).
      { destruct (Qlt_le_dec (key x) (key y)) as [Hl|Hg].
        - now apply Qlt_le_weak.
        - apply Qle_bool_iff in Hg. congruence. }
      constructor; [now apply IH|].
      apply Forall_forall. intros z Hz.
      apply (Permutation_in _ (Permutation_sym (insert_desc_perm x l))) in Hz.
      destruct Hz as [<-|Hz]; [exact Hlt|].
      rewrite Forall_forall in Hall. now apply Hall.
Qed.

Lemma sorted_reverse_sorted (l : list A) :
  StronglySorted (ge_key key) (sorted_reverse key l).
Proof.
  induction l as [|x l IH]; simpl.
  - constructor.
  - now apply insert_desc_sorted.
Qed.

Lemma StronglySorted_app_cross (R : A -> A -> Prop) (l1 l2 : list A) :
  StronglySorted R (l1 ++ l2) ->
  forall a b, In a l1 -> In b l2 -> R a b.
Proof.
  induction l1 as [|x l1 IH]; simpl; intros Hs a b Ha Hb.
  - destruct Ha.
  - inversion Hs as [|? ? Hs' Hall]; subst.
    destruct Ha as [<-|Ha].
    + rewrite Forall_forall in Hall. apply Hall, in_or_app. now right.
    + now apply IH.
Qed.

End SortedFacts.

Section FilterFacts.

Import Performance.

Lemma score_of_In (scores : dict Q) (w : string) (v : Q) :
  wf scores -> In (w, v) scores -> score_of scores w = v.
Proof.
  intros Hwf Hin. unfold score_of. now rewrite (get_wf_In scores w v Hwf Hin).
Qed.

Lemma In_score_of (scores : dict Q) (w : string) :
  In w (keys scores) -> In (w, score_of scores w) scores.
Proof.
  intros Hin. destruct (In_keys_get scores w Hin) as [v Hv].
  unfold score_of. rewrite Hv. now apply get_Some_In.
Qed.

Lemma ranking_perm (scores : dict Q) : Permutation (keys scores) (ranking scores).
Proof. apply sorted_reverse_perm. Qed.

Lemma ranking_NoDup (scores : dict Q) : wf scores -> NoDup (ranking scores).
Proof. intros H. exact (Permutation_NoDup (ranking_perm scores) H). Qed.

Lemma ranking_length (scores : dict Q) :
  List.length (ranking scores) = List.length scores.
Proof.
  rewrite <- (Permutation_length (ranking_perm scores)). apply length_keys.
Qed.

(** The loop appends the entries of the first [top_k - index] keys, as
    long as none of them is in [filtered] already. *)
Lemma top_k_loop_firstn (scores : dict Q) (top_k : Z) :
  forall (ws : list string) (index : Z) (filtered : dict Q),
    NoDup (keys filtered ++ ws) ->
    top_k_loop scores top_k ws index filtered
    = (filtered ++ map (fun w => (w, score_of scores w))
                       (firstn (Z.to_nat (top_k - index)) ws))%list.
Proof.
  induction ws as [|w ws IH]; intros index filtered Hnd; simpl.
  - rewrite firstn_nil. simpl. now rewrite app_nil_r.
  - destruct (Z.ltb_spec index top_k) as [Hlt|Hge].
    + replace (Z.to_nat (top_k - index)) with (S (Z.to_nat (top_k - (index + 1))))
        by lia.
      assert (Hfresh : ~ In w (keys filtered)).
      { intros Hin. apply NoDup_remove_2 in Hnd. apply Hnd, in_or_app. now left. }
      rewrite (update_fresh filtered w _ Hfresh).
      rewrite IH.
      * simpl. now rewrite <- app_assoc.
      * unfold keys in *. rewrite map_app. simpl. now rewrite <- app_assoc.
    + replace (Z.to_nat (top_k - index)) with 0%nat by lia.
      simpl. now rewrite app_nil_r.
Qed.

(** [filter_relevance_by_top_k] keeps the first [top_k] keys of the
    ranking, each with its score. *)
Lemma filter_relevance_by_top_k_firstn (scores : dict Q) (top_k : Z) :
  wf scores ->
  filter_relevance_by_top_k scores top_k
  = map (fun w => (w, score_of scores w)) (firstn (Z.to_nat top_k) (ranking scores)).
Proof.
  intros Hwf. unfold filter_relevance_by_top_k.
  rewrite top_k_loop_firstn by (simpl; now apply ranking_NoDup).
  simpl. now rewrite Z.sub_0_r.
Qed.

Lemma filter_relevance_by_top_k_length (scores : dict Q) (top_k : Z) :
  wf scores ->
  List.length (filter_relevance_by_top_k scores top_k)
  = Nat.min (Z.to_nat top_k) (List.length scores).
Proof.
  intros Hwf. rewrite filter_relevance_by_top_k_firstn by exact Hwf.
  now rewrite length_map, length_firstn, ranking_length.
Qed.

End FilterFacts.

(** C8. For every score map and every natural number [k],
    [filter_relevance_by_top_k] returns exactly [min(k, |scores|)]
    entries of the score map, and the score of every returned entry is
    greater than or equal to the score of every excluded entry. *)
Theorem filter_relevance_by_top_k_spec :
  forall (scores : dict Q) (k : nat),
    wf scores ->
    let top := filter_relevance_by_top_k scores (Z.of_nat k) in
    List.length top = Nat.min k (List.length scores)
    /\ incl top scores
    /\ (forall w v w' v',
          In (w, v) top -> In (w', v') scores -> ~ In (w', v') top ->
          (v' <= v)%Q).
Proof.
  intros scores k Hwf top.
  pose proof (filter_relevance_by_top_k_firstn scores (Z.of_nat k) Hwf) as Htop.
  rewrite Nat2Z.id in Htop. fold top in Htop.
  split; [|split].
  - unfold top. rewrite filter_relevance_by_top_k_length by exact Hwf.
    now rewrite Nat2Z.id.
  - intros [w v] Hin. rewrite Htop in Hin.
    apply in_map_iff in Hin. destruct Hin as (w0 & [= <- <-] & Hw0).
    apply In_score_of.
    apply (Permutation_in _ (Permutation_sym (ranking_perm scores))).
    rewrite <- (firstn_skipn k (ranking scores)). apply in_or_app. now left.
  - intros w v w' v' Hin Hin' Hout.
    rewrite Htop in Hin, Hout.
    apply in_map_iff in Hin. destruct Hin as (w0 & [= <- <-] & Hw0).
    assert (Hv' : score_of scores w' = v') by now apply score_of_In.
    assert (Hw' : In w' (ranking scores)).
    { apply (Permutation_in _ (ranking_perm scores)).
      change w' with (fst (w', v')). now apply in_map. }
    rewrite <- (firstn_skipn k (ranking scores)) in Hw'.
    apply in_app_or in Hw'. destruct Hw' as [Hfirst|Hrest].
    + exfalso. apply Hout. apply in_map_iff. exists w'. now rewrite Hv'.
    + pose proof (sorted_reverse_sorted (score_of scores) (keys scores)) as Hs.
      fold (ranking scores) in Hs.
      rewrite <- (firstn_skipn k (ranking scores)) in Hs.
      pose proof (StronglySorted_app_cross _ _ _ Hs w0 w' Hw0 Hrest) as Hge.
      unfold ge_key in Hge. now rewrite Hv' in Hge.
Qed.

Lemma six_scores_wf : wf six_scores.
Proof.
  unfold wf, six_scores; simpl.
  repeat (constructor; [simpl; intuition discriminate|]). constructor.
Defined.

Lemma filter_relevance_by_top_k_spec_witness :
  wf six_scores
  /\ List.length (filter_relevance_by_top_k six_scores (Z.of_nat 4))
     = Nat.min 4 (List.length six_scores)
  /\ incl (filter_relevance_by_top_k six_scores (Z.of_nat 4)) six_scores
  /\ (forall w v w' v',
        In (w, v) (filter_relevance_by_top_k six_scores (Z.of_nat 4)) ->
        In (w', v') six_scores ->
        ~ In (w', v') (filter_relevance_by_top_k six_scores (Z.of_nat 4)) ->
        (v' <= v)%Q).
Proof.
  split; [exact six_scores_wf|].
  exact (filter_relevance_by_top_k_spec six_scores 4 six_scores_wf).
Defined.

(** C3. [filter_ranked_list] returns the top-k filtering of the
    unfiltered score map whenever [top_k > 0] and the pure threshold
    filtering when [top_k <= 0]; with [top_k = 5] and a threshold above
    every score, a score map of at least 5 documents yields 5 results. *)
Theorem filter_ranked_list_precedence :
  forall (scores : dict Q) (top_k : Z) (threshold : Q),
    (top_k > 0 ->
     filter_ranked_list scores top_k threshold
     = filter_relevance_by_top_k scores top_k)
    /\ (top_k <= 0 ->
        filter_ranked_list scores top_k threshold
        = filter_relevance_by_threshold scores threshold)
    /\ (wf scores ->
        (5 <= List.length scores)%nat ->
        (forall w v, In (w, v) scores -> (v < threshold)%Q) ->
        List.length (filter_ranked_list scores 5 threshold) = 5%nat).
Proof.
  intros scores top_k threshold. unfold filter_ranked_list.
  split; [|split].
  - intros H. destruct (Z.gtb_spec top_k 0); [reflexivity | lia].
  - intros H. destruct (Z.gtb_spec top_k 0); [lia | reflexivity].
  - intros Hwf Hlen _. change (5 >? 0) with true. cbv iota.
    rewrite filter_relevance_by_top_k_length by exact Hwf.
    change (Z.to_nat 5) with 5%nat. lia.
Qed.

Lemma filter_ranked_list_precedence_witness :
  (5 > 0
   /\ filter_ranked_list six_scores 5 10 = filter_relevance_by_top_k six_scores 5)
  /\ (-1 <= 0
      /\ filter_ranked_list six_scores (-1) 10
         = filter_relevance_by_threshold six_scores 10)
  /\ (wf six_scores
      /\ (5 <= List.length six_scores)%nat
      /\ (forall w v, In (w, v) six_scores -> (v < 10)%Q)
      /\ List.length (filter_ranked_list six_scores 5 10) = 5%nat).
Proof.
  assert (Hpos : 5 > 0) by reflexivity.
  assert (Hneg : -1 <= 0) by discriminate.
  assert (Hlen : (5 <= List.length six_scores)%nat) by (simpl; repeat constructor).
  assert (Hbelow : forall w v, In (w, v) six_scores -> (v < 10)%Q).
  { intros w v Hin. simpl in Hin.
    repeat (destruct Hin as [[= <- <-]|Hin]; [reflexivity|]). destruct Hin. }
  split; [|split].
  - split; [exact Hpos|].
    exact (proj1 (filter_ranked_list_precedence six_scores 5 10) Hpos).
  - split; [exact Hneg|].
    exact (proj1 (proj2 (filter_ranked_list_precedence six_scores (-1) 10)) Hneg).
  - split; [exact six_scores_wf|]. split; [exact Hlen|]. split; [exact Hbelow|].
    exact (proj2 (proj2 (filter_ranked_list_precedence six_scores 5 10))
             six_scores_wf Hlen Hbelow).
Defined.

(** With every score at or below the threshold the pure threshold
    filtering is empty, so the five results of C3 come from the top-k
    branch alone. *)
Lemma filter_relevance_by_threshold_above_all (scores : dict Q) (threshold : Q) :
  (forall w v, In (w, v) scores -> (v <= threshold)%Q) ->
  filter_relevance_by_threshold scores threshold = [].
Proof.
  unfold filter_relevance_by_threshold. generalize (@nil (string * Q)).
  intros acc Hall. revert acc.
  induction scores as [|[w v] scores IH]; intros acc; simpl.
  - reflexivity.
  - assert (Hv : Qle_bool v threshold = true).
    { apply Qle_bool_iff. apply (Hall w). now left. }
    rewrite Hv. simpl. apply IH. intros w' v' Hin. apply (Hall w'). now right.
Qed.

(* ------------------------------------------------------------------ *)
(** ** performance.py: the metrics *)

(** C7. On the scenario of query [q1] (ground truth [d1, d2, d3] with
    labels [1, 0, 1]; predicted scores 0.9, 0.5, 0.1; threshold 0 and
    [top_k = -1]) [avg_precision_score] returns 5/6, the mean of
    [1/1] and [2/3], and [ReciprocalRank.rank] returns 1. *)
Theorem scenario_q1_average_precision_and_reciprocal_rank :
  AveragePrecision.avg_precision_score predicted_q1 actual_q1 0 (-1) = Ok (5 # 6)%Q
  /\ (5 # 6 == (1 / 1 + 2 / 3) / 2)%Q
  /\ ReciprocalRank.rank predicted_q1 actual_q1 0 (-1) = Ok 1%Q.
Proof. split; [reflexivity|]. split; reflexivity. Qed.

(** C4. On the same scenario [r_prec] returns 1: both relevant documents
    of the ground truth are in the retrieved set, and the count is divided
    by the two relevant documents. *)
Theorem scenario_q1_r_prec :
  exists q : Q,
    Precision.r_prec predicted_q1 actual_q1 0 (-1) = Finite q /\ (q == 1)%Q.
Proof. exists (2 # 2)%Q. split; reflexivity. Qed.

(** C4, the claim as stated fails: the value returned on the scenario is
    not 0.5. *)
Lemma scenario_q1_r_prec_is_not_half :
  ~ (exists q : Q,
       Precision.r_prec predicted_q1 actual_q1 0 (-1) = Finite q
       /\ (q == 0.5)%Q).
Proof.
  intros (q & Hq & Hhalf).
  change (Precision.r_prec predicted_q1 actual_q1 0 (-1)) with (Finite (2 # 2)) in Hq.
  injection Hq as <-. vm_compute in Hhalf. discriminate Hhalf.
Qed.

(** C9. With no contributing query, [mean_reciprocal_rank] and
    [mean_r_prec] divide the accumulated total 0 by the number of
    queries 0 and produce no number (NumPy's [nan]), whereas
    [mean_avg_precision] is guarded and returns 0. *)
Theorem means_without_contributing_query :
  ReciprocalRank.mean_reciprocal_rank [] = NaN
  /\ Precision.mean_r_prec [] = NaN
  /\ AveragePrecision.mean_avg_precision [] = Ok 0%Q.
Proof. split; [reflexivity|]. split; reflexivity. Qed.

(** C9, the claim as stated fails for MAP: with no contributing query
    [mean_avg_precision] neither raises nor yields [nan]. *)
Lemma mean_avg_precision_without_query_is_defined :
  ~ (exists e : exception, AveragePrecision.mean_avg_precision [] = Raise e).
Proof. intros [e H]. discriminate H. Qed.

(** [mean_avg_precision] returns a number for every accumulator. *)
Lemma mean_avg_precision_total (precision_scores : dict Q) :
  exists q : Q, AveragePrecision.mean_avg_precision precision_scores = Ok q.
Proof.
  unfold AveragePrecision.mean_avg_precision, float_div.
  destruct (Z.gtb_spec (Z.of_nat (List.length (keys precision_scores))) 0) as [H|H].
  - destruct (Z.eqb_spec (Z.of_nat (List.length (keys precision_scores))) 0);
      [lia | eauto].
  - eauto.
Qed.

(** With at least one contributing query the two NumPy means are the
    arithmetic means. *)
Lemma mean_reciprocal_rank_nonempty (ranks : list Q) :
  ranks <> [] ->
  ReciprocalRank.mean_reciprocal_rank ranks
  = Finite (np_sum ranks / inject_Z (Z.of_nat (List.length ranks)))%Q
  /\ Precision.mean_r_prec ranks
     = Finite (np_sum ranks / inject_Z (Z.of_nat (List.length ranks)))%Q.
Proof.
  intros Hne.
  unfold ReciprocalRank.mean_reciprocal_rank, Precision.mean_r_prec, np_true_divide.
  destruct ranks as [|r ranks]; [congruence|].
  simpl List.length. rewrite Nat2Z.inj_succ.
  destruct (Z.eqb_spec (Z.succ (Z.of_nat (List.length ranks))) 0); [lia|].
  split; reflexivity.
Qed.

(* ------------------------------------------------------------------ *)
(** ** tf_idf.py: the remaining cases *)


Lemma bind_Raise {A B} (m : result A) (f : A -> result B) (e : exception) :
  bind m f = Raise e ->
  m = Raise e \/ exists a, m = Ok a /\ f a = Raise e.
Proof.
  destruct m as [a|e']; simpl; intros H; [right; eauto | left].
  now injection H as ->.
Qed.

Lemma for_each_Raise {A S} (P : exception -> Prop) (body : S -> A -> result S) :
  (forall acc x e, body acc x = Raise e -> P e) ->
  forall (l : list A) (acc : S) (e : exception),
    for_each l body acc = Raise e -> P e.
Proof.
  intros Hbody. induction l as [|x l IH]; intros acc e; simpl.
  - discriminate.
  - intros H. apply bind_Raise in H. destruct H as [H|(a & _ & H)]; eauto.
Qed.

Lemma getitem_Raise {V} (d : dict V) (k : string) (e : exception) :
  getitem d k = Raise e -> builtin_error e.
Proof.
  unfold getitem. destruct (get d k); [discriminate|].
  intros [= <-]. now left.
Qed.

Lemma math_log10_Raise (x : Q) (e : exception) :
  math_log10 x = Raise e -> builtin_error e.
Proof.
  unfold math_log10. destruct (Qle_bool x 0); [|discriminate].
  intros [= <-]. right. now left.
Qed.

Lemma true_div_Raise (a b : Z) (e : exception) :
  true_div a b = Raise e -> builtin_error e.
Proof.
  unfold true_div. destruct (b =? 0); [|discriminate].
  intros [= <-]. right. now right.
Qed.

Ltac raise_cases H :=
  repeat match type of H with
    | bind _ _ = Raise _ =>
        apply bind_Raise in H; destruct H as [H|(? & _ & H)]
    | getitem _ _ = Raise _ => exact (getitem_Raise _ _ _ H)
    | math_log10 _ = Raise _ => exact (math_log10_Raise _ _ H)
    | true_div _ _ = Raise _ => exact (true_div_Raise _ _ _ H)
    | Ok _ = Raise _ => discriminate H
    end.

(** The matrix construction raises nothing but the errors of subscripts,
    logarithms and divisions. *)
Lemma create_tf_idf_matrix_Raise (matrix : dict (dict Z)) (e : exception) :
  TFIDF.create_tf_idf_matrix matrix = Raise e -> builtin_error e.
Proof.
  unfold TFIDF.create_tf_idf_matrix, TFIDF.create_idf_matrix,
    TFIDF.create_tf_matrix, TFIDF.count_documents, TFIDF.get_max_freq_term.
  intros H. raise_cases H.
  - revert H. apply for_each_Raise. intros acc term e0.
    apply for_each_Raise. intros acc' dt e1 H1.
    destruct (negb (mem acc' term) && mem (snd dt) term); [discriminate H1|].
    destruct (mem (snd dt) term); raise_cases H1.
  - revert H. apply for_each_Raise. intros acc wc e0 H0. raise_cases H0.
  - revert H. apply for_each_Raise. intros acc kv e0 H0. raise_cases H0.
    revert H0. apply for_each_Raise. intros acc' wc e1 H1. raise_cases H1.
  - revert H. apply for_each_Raise. intros acc kv e0.
    apply for_each_Raise. intros acc' wv e1 H1. raise_cases H1.
Qed.

(** X29. The initialization error is raised for the absent corpus and
    for no other input. *)
Lemma init_initialization_error_iff (documents : option (dict (dict Z))) :
  TFIDF.init documents = Raise (Exception "TFIDF should be initialized with a corpus.")
  <-> documents = None.
Proof.
  split.
  - destruct documents as [d|]; [|reflexivity].
    simpl. intros H. raise_cases H.
    apply create_tf_idf_matrix_Raise in H.
    destruct H as [H|[H|H]]; discriminate H.
  - intros ->. reflexivity.
Qed.

(* ------------------------------------------------------------------ *)
(** ** bm25.py: idf weights and the average length *)

(** X1. The average document length is undefined exactly for the empty
    corpus: [get_average_doc_length] raises [ZeroDivisionError] if and
    only if there is no document, and returns a non-negative number
    otherwise. *)
Theorem get_average_doc_length_raises_iff_empty :
  forall self : BM25.BM25,
    (BM25.get_average_doc_length self = Raise ZeroDivisionError
     <-> BM25.documents self = [])
    /\ (BM25.documents self <> [] ->
        exists avg : Q,
          BM25.get_average_doc_length self = Ok avg /\ (0 <= avg)%Q).
Proof.
  intros self.
  assert (Hnum : forall (d : dict (dict Z)) acc,
             acc <= fold_left (fun n kv => n + len (snd kv)) d acc).
  { induction d as [|kv d IH]; intros acc; simpl; [lia|].
    specialize (IH (acc + len (snd kv))). unfold len in *. lia. }
  split; [split|].
  - intros H. destruct (BM25.documents self) as [|kv d] eqn:E; [reflexivity|].
    rewrite get_average_doc_length_nonempty in H by (rewrite E; discriminate).
    discriminate H.
  - intros E. unfold BM25.get_average_doc_length. rewrite E. reflexivity.
  - intros Hne. rewrite get_average_doc_length_nonempty by exact Hne.
    eexists. split; [reflexivity|].
    apply Qle_shift_div_l.
    + destruct (BM25.documents self); [congruence|].
      unfold Qlt; simpl. lia.
    + rewrite Qmult_0_l. specialize (Hnum (BM25.documents self) 0).
      unfold Qle; simpl. lia.
Qed.

(** X2. [idf_weight_2] never raises and its value is strictly positive,
    for every corpus and every term (also a term that occurs in no
    document, and the empty corpus). *)
Theorem idf_weight_2_positive :
  forall (self : BM25.BM25) (term : string),
    exists idf : R, BM25.idf_weight_2 self term = Ok idf /\ (0 < idf)%R.
Proof.
  intros self term.
  pose proof (idf_weight_2_value self term) as H. cbv zeta in H.
  destruct H as (Hcode & Hval & Hpos).
  eexists. split; [exact Hcode|].
  rewrite Hval. rewrite <- ln_1. apply ln_increasing; lra.
Qed.

(** X3. The classic [idf_weight] never raises: it is 0 for a term that
    occurs in no document and [log10(N/df)], a non-negative number,
    otherwise. *)
Theorem idf_weight_total_nonneg :
  forall (self : BM25.BM25) (term : string),
    let N := Z.of_nat (List.length (keys (BM25.documents self))) in
    let df := BM25.document_frequency self term in
    (df = 0 -> BM25.idf_weight self term = Ok 0%R)
    /\ (df <> 0 ->
        BM25.idf_weight self term = Ok (ln (IZR N / IZR df) / ln 10)%R)
    /\ exists idf : R, BM25.idf_weight self term = Ok idf /\ (0 <= idf)%R.
Proof.
  intros self term N df.
  pose proof (document_frequency_bounds self term) as [Hlo Hhi].
  fold N df in Hlo, Hhi.
  assert (Hzero : df = 0 -> BM25.idf_weight self term = Ok 0%R).
  { intros E. unfold BM25.idf_weight. fold df. rewrite E. reflexivity. }
  assert (Hpos : df <> 0 ->
                 BM25.idf_weight self term = Ok (ln (IZR N / IZR df) / ln 10)%R).
  { intros Hne. unfold BM25.idf_weight, true_div, math_log10. fold N df.
    destruct (Z.eqb_spec df 0) as [E|_]; [contradiction|]. simpl.
    assert (HdfR : (1 <= IZR df)%R) by (apply IZR_le; lia).
    assert (HNR : (IZR df <= IZR N)%R) by (apply IZR_le; lia).
    assert (Hq : Q2R (inject_Z N / inject_Z df) = (IZR N / IZR df)%R).
    { rewrite Q2R_div, !Q2R_inject_Z; [reflexivity|].
      unfold Qeq; simpl. lia. }
    destruct (Qle_bool (inject_Z N / inject_Z df) 0) eqn:El.
    - apply Qle_bool_iff, Qle_Rle in El. rewrite Hq in El.
      change (Q2R 0) with (Q2R (inject_Z 0)) in El. rewrite Q2R_inject_Z in El.
      assert (0 < IZR N / IZR df)%R by (apply Rdiv_lt_0_compat; lra). lra.
    - now rewrite Hq. }
  split; [exact Hzero|]. split; [exact Hpos|].
  destruct (Z.eq_dec df 0) as [E|Hne].
  - exists 0%R. split; [now apply Hzero | lra].
  - eexists. split; [now apply Hpos|].
    assert (HdfR : (1 <= IZR df)%R) by (apply IZR_le; lia).
    assert (HNR : (IZR df <= IZR N)%R) by (apply IZR_le; lia).
    assert (H10 : (0 < ln 10)%R) by (rewrite <- ln_1; apply ln_increasing; lra).
    assert (Hq1 : (1 <= IZR N / IZR df)%R).
    { apply Rmult_le_reg_r with (IZR df); [lra|]. field_simplify; lra. }
    assert (Hln : (0 <= ln (IZR N / IZR df))%R).
    { destruct Hq1 as [Hlt|<-]; [|rewrite ln_1; lra].
      left. rewrite <- ln_1. apply ln_increasing; lra. }
    apply Rmult_le_pos; [exact Hln|]. left. now apply Rinv_0_lt_compat.
Qed.

(* ------------------------------------------------------------------ *)
(** ** bm25.py: relevance scores *)




Lemma fold_sum_ge (terms : dict Z) (acc : Z) :
  (forall t c, In (t, c) terms -> 0 <= c) ->
  acc <= fold_left (fun doc_len tv => doc_len + snd tv) terms acc.
Proof.
  revert acc. induction terms as [|[t c] terms IH]; intros acc Hall; simpl.
  - lia.
  - assert (0 <= c) by (apply (Hall t); now left).
    specialize (IH (acc + c)). simpl in IH.
    assert (acc + c <= fold_left (fun doc_len tv => doc_len + snd tv) terms (acc + c)).
    { apply IH. intros t' c' Hin. apply (Hall t'). now right. }
    lia.
Qed.

Lemma fold_len_gt (documents : dict (dict Z)) (acc : Z) :
  (exists d terms, In (d, terms) documents /\ terms <> []) ->
  acc < fold_left (fun n kv => n + len (snd kv)) documents acc.
Proof.
  assert (Hge : forall (d : dict (dict Z)) acc,
             acc <= fold_left (fun n kv => n + len (snd kv)) d acc).
  { induction d as [|kv d IH]; intros a; simpl; [lia|].
    specialize (IH (a + len (snd kv))). unfold len in *. lia. }
  revert acc. induction documents as [|kv documents IH]; intros acc (d & terms & Hin & Hne).
  - destruct Hin.
  - simpl. destruct Hin as [->|Hin].
    + simpl. specialize (Hge documents (acc + len terms)).
      destruct terms; [congruence|]. unfold len in *. simpl List.length in *. lia.
    + assert (acc + len (snd kv)
              < fold_left (fun n kv0 => n + len (snd kv0)) documents (acc + len (snd kv)))
        by (apply IH; eauto).
      unfold len in *. lia.
Qed.

Section BM25Scoring.

Import BM25.

Variable self : BM25.

(** The setting in which BM25 is used: a positive saturation [k], a
    length normalisation [b] in [0, 1), counts that are not negative and
    a corpus in which some document has a term. *)
Hypothesis k_positive : (0 < k self)%Q.
Hypothesis b_range : (0 <= b self)%Q /\ (b self < 1)%Q.
Hypothesis counts_nonneg :
  forall d terms t c, In (d, terms) (documents self) -> In (t, c) terms -> 0 <= c.
Hypothesis some_term :
  exists d terms, In (d, terms) (documents self) /\ terms <> [].

Lemma term_frequency_nonneg (term doc_id : string) :
  0 <= get_term_frequency_in_doc self term doc_id.
Proof.
  unfold get_term_frequency_in_doc, getitem.
  destruct (get (documents self) doc_id) as [terms|] eqn:Ed; [|lia].
  destruct (get terms term) as [c|] eqn:Et; [|lia].
  apply get_Some_In in Ed. apply get_Some_In in Et.
  exact (counts_nonneg _ _ _ _ Ed Et).
Qed.

Lemma average_positive :
  exists avg : Q, get_average_doc_length self = Ok avg /\ (0 < avg)%Q.
Proof.
  assert (Hne : documents self <> []).
  { destruct some_term as (d & terms & Hin & _).
    intros E. rewrite E in Hin. destruct Hin. }
  rewrite get_average_doc_length_nonempty by exact Hne.
  eexists. split; [reflexivity|].
  apply Qlt_shift_div_l.
  - destruct (documents self); [congruence|]. unfold Qlt; simpl. lia.
  - rewrite Qmult_0_l. pose proof (fold_len_gt (documents self) 0 some_term).
    unfold Qlt; simpl. lia.
Qed.

Lemma doc_length_nonneg (doc_id : string) (doc_length : Z) :
  get_doc_length self doc_id = Ok doc_length -> 0 <= doc_length.
Proof.
  unfold get_doc_length, getitem.
  destruct (get (documents self) doc_id) as [terms|] eqn:Ed; [|discriminate].
  simpl. intros [= <-]. apply fold_sum_ge.
  intros t c Hin. apply get_Some_In in Ed.
  exact (counts_nonneg _ _ _ _ Ed Hin).
Qed.

(** One query term never raises; its score is not negative, and it is 0
    when the term does not occur in the document. *)
Lemma term_score_nonneg (doc_id : string) (doc_length : Z) (avg : Q)
  (term : string) :
  0 <= doc_length -> (0 < avg)%Q ->
  exists ts : R,
    term_score self doc_id doc_length avg term = Ok ts
    /\ (0 <= ts)%R
    /\ (get_term_frequency_in_doc self term doc_id = 0 -> ts = 0%R).
Proof.
  intros Hdl Havg. unfold term_score, float_truediv.
  pose proof (term_frequency_nonneg term doc_id) as Htf.
  set (tf := get_term_frequency_in_doc self term doc_id) in *.
  destruct (Qeq_bool avg 0) eqn:Ea.
  { apply Qeq_bool_iff in Ea. lra. }
  simpl bind.
  destruct (idf_weight_2_value self term) as (Hidf & Hval & Hpos).
  rewrite Hidf. simpl bind.
  set (idf := ln _) in *.
  assert (Hidf0 : (0 < idf)%R).
  { unfold idf. rewrite Hval. rewrite <- ln_1. apply ln_increasing; lra. }
  assert (HdlQ : (0 <= inject_Z doc_length)%Q) by (unfold Qle; simpl; lia).
  assert (HtfQ : (0 <= inject_Z tf)%Q) by (unfold Qle; simpl; lia).
  destruct b_range as [Hb0 Hb1].
  assert (Hratio : (0 <= b self * inject_Z doc_length / avg)%Q).
  { apply Qle_shift_div_l; [exact Havg|]. rewrite Qmult_0_l.
    now apply Qmult_le_0_compat. }
  set (ratio := (b self * inject_Z doc_length / avg)%Q) in *.
  assert (Hden : (0 < inject_Z tf + k self * (1 - b self + ratio))%Q).
  { assert (0 < k self * (1 - b self + ratio))%Q by (apply Qmult_lt_0_compat; lra).
    lra. }
  set (den := (inject_Z tf + k self * (1 - b self + ratio))%Q) in *.
  destruct (Qeq_bool den 0) eqn:Ed.
  { apply Qeq_bool_iff in Ed. lra. }
  assert (HdenR : (0 < Q2R den)%R).
  { apply Qlt_Rlt in Hden. now rewrite RMicromega.Q2R_0 in Hden. }
  assert (Hcnt : (0 <= Q2R (inject_Z tf * (k self + 1)))%R).
  { rewrite <- RMicromega.Q2R_0. apply Qle_Rle. apply Qmult_le_0_compat; lra. }
  eexists. split; [reflexivity|]. split.
  - apply Rmult_le_pos; [apply Rmult_le_pos; lra|].
    left. now apply Rinv_0_lt_compat.
  - intros E. rewrite E, Q2R_mult, Q2R_inject_Z. unfold Rdiv. ring.
Qed.

Lemma score_terms_nonneg (doc_id : string) (doc_length : Z) (avg : Q) :
  0 <= doc_length -> (0 < avg)%Q ->
  forall (terms : list string) (score : R),
    exists s : R,
      score_terms self doc_id doc_length avg terms score = Ok s
      /\ (score <= s)%R
      /\ ((forall t, In t terms -> get_term_frequency_in_doc self t doc_id = 0) ->
          s = score).
Proof.
  intros Hdl Havg. unfold score_terms.
  induction terms as [|t terms IH]; intros score; simpl.
  - exists score. split; [reflexivity|]. split; [lra | reflexivity].
  - destruct (term_score_nonneg doc_id doc_length avg t Hdl Havg)
      as (ts & Hts & Hts0 & Htsz).
    rewrite Hts. simpl bind.
    destruct (IH (score + ts)%R) as (s & Hs & Hle & Hz).
    exists s. split; [exact Hs|]. split; [lra|].
    intros Hall. rewrite Hz by (intros t' Ht'; apply Hall; now right).
    rewrite Htsz by (apply Hall; now left). ring.
Qed.

(** For a document of the corpus [relevance] never raises and the score
    is not negative. *)
Lemma relevance_known_doc (doc_id query : string) :
  In doc_id (keys (documents self)) ->
  exists score : R,
    relevance self doc_id query = Ok score
    /\ (0 <= score)%R
    /\ ((forall t, In t (split query) ->
                   get_term_frequency_in_doc self t doc_id = 0) ->
        score = 0%R).
Proof.
  intros Hin. unfold relevance.
  destruct (In_keys_get _ _ Hin) as [terms Hterms].
  destruct (get_doc_length self doc_id) as [doc_length|e] eqn:Edl.
  2:{ unfold get_doc_length, getitem in Edl. rewrite Hterms in Edl. discriminate Edl. }
  simpl bind.
  destruct average_positive as (avg & Havg & Hpos).
  rewrite Havg. simpl bind.
  apply score_terms_nonneg; [now apply (doc_length_nonneg doc_id) | exact Hpos].
Qed.

End BM25Scoring.



Lemma relevance_known_doc_zero (self : BM25.BM25) (doc_id query : string) :
  scoring_setting self ->
  In doc_id (keys (BM25.documents self)) ->
  (forall t, In t (split query) ->
             BM25.get_term_frequency_in_doc self t doc_id = 0) ->
  BM25.relevance self doc_id query = Ok 0%R.
Proof.
  intros (Hk & Hb & Hc & Hs) Hin Hnone.
  destruct (relevance_known_doc self Hk Hb Hc Hs doc_id query Hin)
    as (score & Hscore & _ & Hzero).
  rewrite Hscore. f_equal. now apply Hzero.
Qed.

(** X4. [relevance] on a document identifier that is not in the corpus
    raises [KeyError], whatever the query (the document length is looked
    up before any term is scored). *)
Theorem relevance_missing_doc_raises :
  forall (self : BM25.BM25) (doc_id query : string),
    ~ In doc_id (keys (BM25.documents self)) ->
    BM25.relevance self doc_id query = Raise KeyError.
Proof.
  intros self doc_id query Habsent. apply get_None_iff in Habsent.
  unfold BM25.relevance, BM25.get_doc_length, getitem.
  now rewrite Habsent.
Qed.

Lemma relevance_missing_doc_raises_witness :
  ~ In "d9" (keys (BM25.documents bm25_ab))
  /\ BM25.relevance bm25_ab "d9" "a b" = Raise KeyError.
Proof.
  assert (H : ~ In "d9" (keys (BM25.documents bm25_ab))).
  { simpl. intros [E|[E|[]]]; discriminate E. }
  split; [exact H|].
  exact (relevance_missing_doc_raises bm25_ab "d9" "a b" H).
Defined.









Lemma corpus_ab_wf : wf (BM25.documents bm25_ab).
Proof.
  unfold wf; simpl.
  repeat (constructor; [simpl; intuition discriminate|]). constructor.
Qed.


(* ------------------------------------------------------------------ *)
(** ** tf_idf.py: the matrices *)

Lemma max_freq_fold (terms : dict Z) :
  forall m0 : Z,
    let m := fold_left
               (fun max_freq kv => if snd kv >? max_freq then snd kv else max_freq)
               terms m0 in
    m0 <= m /\ (forall t c, In (t, c) terms -> c <= m)
    /\ (m = m0 \/ exists t, In (t, m) terms).
Proof.
  induction terms as [|[t c] terms IH]; intros m0; simpl.
  - split; [lia|]. split; [intros ? ? []|now left].
  - destruct (Z.gtb_spec c m0) as [Hgt|Hle].
    + destruct (IH c) as (H0 & Hall & Hor). cbv zeta in *.
      split; [lia|]. split.
      * intros t' c' [[= <- <-]|Hin]; [exact H0 | now apply (Hall t')].
      * right. destruct Hor as [->|(t' & Hin)]; [exists t; now left|].
        exists t'. now right.
    + destruct (IH m0) as (H0 & Hall & Hor). cbv zeta in *.
      split; [exact H0|]. split.
      * intros t' c' [[= <- <-]|Hin]; [lia | now apply (Hall t')].
      * destruct Hor as [->|(t' & Hin)]; [now left|].
        right. exists t'. now right.
Qed.

(** X9. [get_max_freq_term] raises [KeyError] for an unknown document;
    for a document of the matrix it returns a number that is not
    negative, bounds every count of the document and is 0 or one of its
    counts. *)
Theorem get_max_freq_term_spec :
  forall (matrix : dict (dict Z)) (doc_id : string),
    (~ In doc_id (keys matrix) ->
     TFIDF.get_max_freq_term matrix doc_id = Raise KeyError)
    /\ (forall terms : dict Z,
          get matrix doc_id = Some terms ->
          exists max_freq : Z,
            TFIDF.get_max_freq_term matrix doc_id = Ok max_freq
            /\ 0 <= max_freq
            /\ (forall t c, In (t, c) terms -> c <= max_freq)
            /\ (max_freq = 0 \/ exists t, In (t, max_freq) terms)).
Proof.
  intros matrix doc_id. unfold TFIDF.get_max_freq_term, getitem. split.
  - intros Habsent. apply get_None_iff in Habsent. now rewrite Habsent.
  - intros terms Hget. rewrite Hget. simpl bind. eexists. split; [reflexivity|].
    destruct (max_freq_fold terms 0) as (H0 & Hall & Hor).
    split; [exact H0|]. split; assumption.
Qed.

Lemma get_max_freq_term_spec_witness :
  (~ In "d9" (keys corpus_ab) ->
   TFIDF.get_max_freq_term corpus_ab "d9" = Raise KeyError)
  /\ (get corpus_ab "d2" = Some [("a", 1); ("b", 2); ("c", 1)]
      /\ exists max_freq : Z,
           TFIDF.get_max_freq_term corpus_ab "d2" = Ok max_freq
           /\ 0 <= max_freq
           /\ (forall t c, In (t, c) [("a", 1); ("b", 2); ("c", 1)] -> c <= max_freq)
           /\ (max_freq = 0 \/ exists t, In (t, max_freq) [("a", 1); ("b", 2); ("c", 1)])).
Proof.
  split.
  - exact (proj1 (get_max_freq_term_spec corpus_ab "d9")).
  - split; [reflexivity|].
    exact (proj2 (get_max_freq_term_spec corpus_ab "d2") _ eq_refl).
Defined.

Lemma for_each_Ok_In {A S} (body : S -> A -> result S) (l : list A) :
  (forall acc x, In x l -> exists acc', body acc x = Ok acc') ->
  forall acc, exists r, for_each l body acc = Ok r.
Proof.
  induction l as [|x l IH]; intros Hbody acc; simpl.
  - eauto.
  - destruct (Hbody acc x (or_introl eq_refl)) as [acc' ->]. simpl.
    apply IH. intros acc0 y Hy. apply Hbody. now right.
Qed.

Lemma for_each_invariant {A S} (Inv : S -> Prop) (body : S -> A -> result S)
  (l : list A) :
  (forall acc x acc', In x l -> Inv acc -> body acc x = Ok acc' -> Inv acc') ->
  forall acc r, Inv acc -> for_each l body acc = Ok r -> Inv r.
Proof.
  induction l as [|x l IH]; intros Hbody acc r Hinv; simpl.
  - now intros [= <-].
  - destruct (body acc x) as [acc'|e] eqn:E; simpl; [|discriminate].
    apply IH.
    + intros acc0 y acc1 Hy. apply Hbody. now right.
    + exact (Hbody acc x acc' (or_introl eq_refl) Hinv E).
Qed.

Lemma for_each_Raise_In {A S} (P : exception -> Prop) (body : S -> A -> result S)
  (l : list A) :
  (forall acc x e, In x l -> body acc x = Raise e -> P e) ->
  forall (acc : S) (e : exception), for_each l body acc = Raise e -> P e.
Proof.
  induction l as [|x l IH]; intros Hbody acc e; simpl.
  - discriminate.
  - intros H. apply bind_Raise in H. destruct H as [H|(a & _ & H)].
    + exact (Hbody acc x e (or_introl eq_refl) H).
    + apply (IH (fun acc0 y e0 Hy => Hbody acc0 y e0 (or_intror Hy)) a e H).
Qed.

(** A loop over a list one of whose elements makes the body raise, raises. *)
Lemma for_each_raises {A S} (body : S -> A -> result S) (l : list A) (x : A) :
  In x l ->
  (forall acc, exists e, body acc x = Raise e) ->
  forall acc, exists e, for_each l body acc = Raise e.
Proof.
  intros Hin Hx. induction l as [|y l IH]; intros acc; [destruct Hin|].
  simpl. destruct (body acc y) as [acc'|e] eqn:E; simpl.
  - destruct Hin as [->|Hin]; [|now apply IH].
    destruct (Hx acc) as [e He]. congruence.
  - eauto.
Qed.

Lemma wf_update {V} (d : dict V) (k : string) (v : V) : wf d -> wf (update d k v).
Proof.
  unfold wf. intros Hwf.
  destruct (in_dec string_dec k (keys d)) as [Hin|Hout].
  - now rewrite keys_update_present.
  - rewrite update_fresh by exact Hout. unfold keys in *. rewrite map_app. simpl.
    apply (Permutation_NoDup (Permutation_cons_append (map fst d) k)).
    now constructor.
Qed.

Lemma mem_true_iff {V} (d : dict V) (k : string) :
  mem d k = true <-> In k (keys d).
Proof.
  unfold mem. destruct (get d k) as [v|] eqn:E.
  - split; [intros _|reflexivity].
    destruct (in_dec string_dec k (keys d)) as [H|H]; [exact H|].
    apply get_None_iff in H. congruence.
  - apply get_None_iff in E. split; [discriminate | contradiction].
Qed.

Lemma containing_cons (dt : string * dict Z) (matrix : dict (dict Z)) (t : string) :
  containing (dt :: matrix) t
  = if mem (snd dt) t then 1 + containing matrix t else containing matrix t.
Proof.
  unfold containing. cbn [filter]. destruct (mem (snd dt) t); [|reflexivity].
  cbn [List.length]. rewrite Nat2Z.inj_succ. lia.
Qed.

Lemma containing_bounds (matrix : dict (dict Z)) (t : string) :
  0 <= containing matrix t <= Z.of_nat (List.length matrix).
Proof.
  unfold containing. split; [apply Nat2Z.is_nonneg|].
  apply Nat2Z.inj_le, filter_length_le.
Qed.

Lemma containing_pos_iff (matrix : dict (dict Z)) (t : string) :
  0 < containing matrix t
  <-> exists d terms, In (d, terms) matrix /\ In t (keys terms).
Proof.
  induction matrix as [|[d terms] matrix IH].
  - split; [unfold containing; simpl; lia | intros (? & ? & [] & _)].
  - rewrite containing_cons. simpl snd.
    pose proof (containing_bounds matrix t) as Hb.
    destruct (mem terms t) eqn:E.
    + split; [intros _|lia]. exists d, terms. split; [now left|].
      now apply mem_true_iff.
    + rewrite IH. split.
      * intros (d' & terms' & Hin & Ht). exists d', terms'. split; [now right | exact Ht].
      * intros (d' & terms' & [[= <- <-]|Hin] & Ht).
        -- apply mem_true_iff in Ht. congruence.
        -- eauto.
Qed.

(** The inner loop counts the documents that contain the term and touches
    no other entry. *)
Lemma count_term_spec (t : string) :
  forall (docs : dict (dict Z)) (acc : dict Z),
    wf acc ->
    exists acc' : dict Z,
      count_term docs t acc = Ok acc'
      /\ wf acc'
      /\ (forall w, w <> t -> get acc' w = get acc w)
      /\ get acc' t
         = match get acc t with
           | Some c => Some (c + containing docs t)
           | None => if containing docs t =? 0 then None
                     else Some (containing docs t)
           end.
Proof.
  unfold count_term.
  induction docs as [|dt docs IH]; intros acc Hwf.
  - exists acc. simpl. split; [reflexivity|]. split; [exact Hwf|].
    split; [reflexivity|].
    destruct (get acc t); [f_equal; unfold containing; simpl; lia | reflexivity].
  - simpl for_each. rewrite containing_cons.
    pose proof (containing_bounds docs t) as Hb.
    destruct (mem (snd dt) t) eqn:Em.
    + unfold mem at 1, getitem.
      destruct (get acc t) as [c|] eqn:Eg; cbn [negb andb bind].
      * destruct (IH (update acc t (c + 1)) (wf_update _ _ _ Hwf))
          as (acc' & Hloop & Hwf' & Hother & Hself).
        exists acc'. split; [exact Hloop|]. split; [exact Hwf'|]. split.
        -- intros w Hw. rewrite Hother by exact Hw. rewrite get_update.
           destruct (String.eqb_spec t w); [congruence | reflexivity].
        -- rewrite Hself, get_update, String.eqb_refl. f_equal. lia.
      * destruct (IH (update acc t 1) (wf_update _ _ _ Hwf))
          as (acc' & Hloop & Hwf' & Hother & Hself).
        exists acc'. split; [exact Hloop|]. split; [exact Hwf'|]. split.
        -- intros w Hw. rewrite Hother by exact Hw. rewrite get_update.
           destruct (String.eqb_spec t w); [congruence | reflexivity].
        -- rewrite Hself, get_update, String.eqb_refl.
           destruct (Z.eqb_spec (1 + containing docs t) 0); [lia | reflexivity].
    + rewrite andb_false_r. apply IH. exact Hwf.
Qed.

Lemma count_documents_loop (matrix : dict (dict Z)) :
  forall (vocabulary : list string) (acc : dict Z),
    NoDup vocabulary ->
    wf acc ->
    (forall t, In t vocabulary -> get acc t = None) ->
    exists acc' : dict Z,
      for_each vocabulary (fun idf_matrix term => count_term matrix term idf_matrix) acc
      = Ok acc'
      /\ wf acc'
      /\ (forall w, In w vocabulary ->
                    get acc' w = if containing matrix w =? 0 then None
                                 else Some (containing matrix w))
      /\ (forall w, ~ In w vocabulary -> get acc' w = get acc w).
Proof.
  induction vocabulary as [|t vocabulary IH]; intros acc Hnd Hwf Hfresh.
  - exists acc. simpl. repeat split; tauto.
  - inversion Hnd as [|? ? Hnotin Hnd']; subst.
    simpl for_each.
    destruct (count_term_spec t matrix acc Hwf) as (acc1 & Hterm & Hwf1 & Hother & Hself).
    rewrite Hterm. simpl bind.
    rewrite (Hfresh t (or_introl eq_refl)) in Hself.
    destruct (IH acc1 Hnd' Hwf1) as (acc' & Hloop & Hwf' & Hin & Hout).
    { intros t' Ht'. rewrite Hother by (intros ->; contradiction).
      apply Hfresh. now right. }
    exists acc'. split; [exact Hloop|]. split; [exact Hwf'|]. split.
    + intros w [<-|Hw]; [|now apply Hin].
      now rewrite (Hout t Hnotin).
    + intros w Hw. simpl in Hw. rewrite Hout by tauto.
      apply Hother. intros ->. tauto.
Qed.

Lemma vocabulary_of_spec (matrix : dict (dict Z)) :
  NoDup (TFIDF.vocabulary_of matrix)
  /\ forall w, In w (TFIDF.vocabulary_of matrix)
               <-> exists d terms, In (d, terms) matrix /\ In w (keys terms).
Proof.
  unfold TFIDF.vocabulary_of.
  enough (G : forall v0 : list string,
            NoDup v0 ->
            NoDup (fold_left (fun vocabulary dt => set_of (vocabulary ++ keys (snd dt)))
                             matrix v0)
            /\ forall w,
                 In w (fold_left (fun vocabulary dt => set_of (vocabulary ++ keys (snd dt)))
                                 matrix v0)
                 <-> In w v0 \/ exists d terms, In (d, terms) matrix /\ In w (keys terms)).
  { destruct (G [] (NoDup_nil _)) as [Hnd Hin]. split; [exact Hnd|].
    intros w. rewrite Hin. simpl. tauto. }
  induction matrix as [|[d terms] matrix IH]; intros v0 Hnd; simpl.
  - split; [exact Hnd|]. intros w. split; [tauto|].
    intros [H|(? & ? & [] & _)]; exact H.
  - destruct (IH (set_of (v0 ++ keys terms)) (NoDup_nodup _ _)) as [Hnd' Hin].
    split; [exact Hnd'|]. intros w. rewrite Hin. unfold set_of.
    rewrite nodup_In, in_app_iff. split.
    + intros [[H|H]|(d' & terms' & H & Hw)].
      * now left.
      * right. exists d, terms. split; [now left | exact H].
      * right. exists d', terms'. split; [now right | exact Hw].
    + intros [H|(d' & terms' & [[= <- <-]|H] & Hw)].
      * left. now left.
      * left. now right.
      * right. eauto.
Qed.

Lemma log10_ratio (N c : Z) :
  1 <= c <= N ->
  (q <- true_div N c ;; math_log10 q) = Ok (ln (IZR N / IZR c) / ln 10)%R.
Proof.
  intros [Hc HN]. unfold true_div, math_log10.
  destruct (Z.eqb_spec c 0) as [E|_]; [lia|]. simpl.
  assert (HcR : (1 <= IZR c)%R) by (apply IZR_le; lia).
  assert (HNR : (IZR c <= IZR N)%R) by (apply IZR_le; lia).
  assert (Hq : Q2R (inject_Z N / inject_Z c) = (IZR N / IZR c)%R).
  { rewrite Q2R_div, !Q2R_inject_Z; [reflexivity|]. unfold Qeq; simpl. lia. }
  destruct (Qle_bool (inject_Z N / inject_Z c) 0) eqn:El.
  - apply Qle_bool_iff, Qle_Rle in El. rewrite Hq, RMicromega.Q2R_0 in El.
    assert (0 < IZR N / IZR c)%R by (apply Rdiv_lt_0_compat; lra). lra.
  - now rewrite Hq.
Qed.

Lemma weigh_counts_spec (N : Z) :
  forall (counts : dict Z) (acc : dict R),
    wf counts ->
    (forall w c, In (w, c) counts -> 1 <= c <= N) ->
    exists idf : dict R,
      weigh_counts N counts acc = Ok idf
      /\ (forall w c, In (w, c) counts ->
                      get idf w = Some (ln (IZR N / IZR c) / ln 10)%R)
      /\ (forall w, ~ In w (keys counts) -> get idf w = get acc w).
Proof.
  unfold weigh_counts, wf.
  induction counts as [|[w c] counts IH]; intros acc Hwf Hb.
  - exists acc. simpl. split; [reflexivity|]. split; [intros ? ? []|reflexivity].
  - simpl in Hwf. inversion Hwf as [|? ? Hnotin Hwf']; subst.
    simpl for_each. simpl fst. simpl snd.
    pose proof (log10_ratio N c (Hb w c (or_introl eq_refl))) as Hlog.
    destruct (true_div N c) as [q|e]; simpl in Hlog |- *; [|discriminate Hlog].
    rewrite Hlog. simpl bind.
    destruct (IH (update acc w (ln (IZR N / IZR c) / ln 10)%R) Hwf')
      as (idf & Hloop & Hin & Hout).
    { intros w' c' H'. apply (Hb w'). now right. }
    exists idf. split; [exact Hloop|]. split.
    + intros w' c' [[= <- <-]|H']; [|now apply Hin].
      now rewrite (Hout w Hnotin), get_update, String.eqb_refl.
    + intros w' Hw'. simpl in Hw'. rewrite Hout by tauto.
      rewrite get_update. destruct (String.eqb_spec w w'); [tauto | reflexivity].
Qed.

Lemma create_idf_matrix_get :
  forall matrix : dict (dict Z),
    exists idf_vector : dict R,
      TFIDF.create_idf_matrix matrix = Ok idf_vector
      /\ forall w : string,
           get idf_vector w
           = if containing matrix w =? 0 then None
             else Some (ln (IZR (Z.of_nat (List.length matrix))
                            / IZR (containing matrix w)) / ln 10)%R.
Proof.
  intros matrix. unfold TFIDF.create_idf_matrix, TFIDF.count_documents.
  destruct (vocabulary_of_spec matrix) as [Hnd Hvoc].
  destruct (count_documents_loop matrix (TFIDF.vocabulary_of matrix) [] Hnd)
    as (counts & Hcount & Hwf & Hin & Hout).
  { constructor. }
  { reflexivity. }
  assert (Hget : forall w, get counts w
                           = if containing matrix w =? 0 then None
                             else Some (containing matrix w)).
  { intros w. destruct (in_dec string_dec w (TFIDF.vocabulary_of matrix)) as [H|H].
    - now apply Hin.
    - rewrite (Hout w H). simpl.
      destruct (Z.eqb_spec (containing matrix w) 0) as [_|Hne]; [reflexivity|].
      exfalso. apply H, Hvoc, containing_pos_iff.
      pose proof (containing_bounds matrix w). lia. }
  unfold count_term in Hcount. rewrite Hcount. simpl bind.
  destruct (weigh_counts_spec (Z.of_nat (List.length matrix)) counts [] Hwf)
    as (idf & Hweigh & Hidf & Hrest).
  { intros w c Hwc. apply (get_wf_In _ _ _ Hwf) in Hwc. rewrite Hget in Hwc.
    pose proof (containing_bounds matrix w).
    destruct (Z.eqb_spec (containing matrix w) 0); [discriminate|].
    injection Hwc as <-. lia. }
  unfold weigh_counts in Hweigh. rewrite Hweigh.
  exists idf. split; [reflexivity|]. intros w.
  specialize (Hget w).
  destruct (Z.eqb_spec (containing matrix w) 0) as [E|Hne].
  - rewrite Hrest; [reflexivity|]. now apply get_None_iff.
  - apply get_Some_In in Hget. now apply Hidf.
Qed.

(** X10. [create_idf_matrix] never raises, whatever the corpus.  Its
    vocabulary is exactly the set of terms that are a key of some
    document, and the weight of such a term is [log10(N/df)], with [N]
    the number of documents and [df] the number of documents that hold
    the term. *)
Theorem create_idf_matrix_spec :
  forall matrix : dict (dict Z),
    exists idf_vector : dict R,
      TFIDF.create_idf_matrix matrix = Ok idf_vector
      /\ forall w : string,
           get idf_vector w
           = if containing matrix w =? 0 then None
             else Some (ln (IZR (Z.of_nat (List.length matrix))
                            / IZR (containing matrix w)) / ln 10)%R.
Proof. exact create_idf_matrix_get. Qed.

Lemma math_log10_inject_Z (c : Z) :
  (1 <= c -> exists r, math_log10 (inject_Z c) = Ok r)
  /\ (c <= 0 -> math_log10 (inject_Z c) = Raise ValueError).
Proof.
  unfold math_log10. split; intros H.
  - destruct (Qle_bool (inject_Z c) 0) eqn:E; [|eauto].
    apply Qle_bool_iff in E. unfold Qle in E; simpl in E. lia.
  - destruct (Qle_bool (inject_Z c) 0) eqn:E; [reflexivity|].
    assert (Hle : (inject_Z c <= 0)%Q) by (unfold Qle; simpl; lia).
    apply Qle_bool_iff in Hle. congruence.
Qed.

Lemma get_max_freq_term_In (matrix : dict (dict Z)) (d : string) (terms : dict Z) :
  In (d, terms) matrix ->
  exists m, TFIDF.get_max_freq_term matrix d = Ok m.
Proof.
  intros Hin. unfold TFIDF.get_max_freq_term, getitem.
  assert (Hk : In d (keys matrix)) by (change d with (fst (d, terms)); now apply in_map).
  destruct (In_keys_get matrix d Hk) as [terms' ->]. simpl. eauto.
Qed.

(** With counts that are all at least 1, in a well-formed corpus, the
    term-frequency matrix is built without an error. *)
Lemma create_tf_matrix_ok (matrix : dict (dict Z)) :
  wf matrix -> positive_counts matrix ->
  exists tf_matrix, TFIDF.create_tf_matrix matrix = Ok tf_matrix.
Proof.
  intros Hwf Hpos. unfold TFIDF.create_tf_matrix.
  apply for_each_Ok_In. intros acc [d terms] Hin. simpl fst. simpl snd.
  unfold TFIDF.get_max_freq_term, getitem.
  rewrite (get_wf_In matrix d terms Hwf Hin). simpl bind.
  destruct (max_freq_fold terms 0) as (_ & Hall & _). cbv zeta in Hall.
  apply for_each_Ok_In. intros acc' [t c] Ht. simpl fst. simpl snd.
  assert (Hc : 1 <= c) by exact (Hpos d terms t c Hin Ht).
  destruct (proj1 (math_log10_inject_Z c) Hc) as [lc ->]. simpl bind.
  specialize (Hall t c Ht).
  destruct (proj1 (math_log10_inject_Z _) (Z.le_trans _ _ _ Hc Hall)) as [lm ->].
  simpl. eauto.
Qed.

(** A stored count of 0 or less makes [math.log] raise: the construction
    of the term-frequency matrix ends in [ValueError]. *)
Lemma create_tf_matrix_value_error (matrix : dict (dict Z)) :
  (exists d terms t c, In (d, terms) matrix /\ In (t, c) terms /\ c <= 0) ->
  TFIDF.create_tf_matrix matrix = Raise ValueError.
Proof.
  intros (d & terms & t & c & Hd & Ht & Hc). unfold TFIDF.create_tf_matrix.
  match goal with
  | |- ?loop = _ => assert (Hex : exists e, loop = Raise e)
  end.
  { apply (for_each_raises _ matrix (d, terms) Hd).
    intros acc. simpl fst. simpl snd.
    destruct (get_max_freq_term_In matrix d terms Hd) as [m ->]. simpl bind.
    apply (for_each_raises _ terms (t, c) Ht).
    intros acc'. simpl snd.
    rewrite (proj2 (math_log10_inject_Z c) Hc). simpl. eauto. }
  destruct Hex as [e He]. rewrite He. f_equal.
  revert He. apply (for_each_Raise_In (fun e => e = ValueError)).
  intros acc [d' terms'] e' Hin' H.
  simpl fst in H. simpl snd in H.
  destruct (get_max_freq_term_In matrix d' terms' Hin') as [m Hm].
  rewrite Hm in H. simpl bind in H.
  revert H. apply (for_each_Raise (fun e => e = ValueError)).
  intros acc' wc e0 H.
  apply bind_Raise in H. destruct H as [H|(lc & _ & H)].
  - unfold math_log10 in H. destruct (Qle_bool _ 0); congruence.
  - apply bind_Raise in H. destruct H as [H|(lm & _ & H)]; [|discriminate H].
    unfold math_log10 in H. destruct (Qle_bool _ 0); congruence.
Qed.

(** X11. [create_tf_matrix] on a corpus with pairwise distinct document
    identifiers succeeds when every stored count is at least 1 and raises
    [ValueError] when some stored count is 0 or negative. *)
Theorem create_tf_matrix_defined_iff_positive :
  forall matrix : dict (dict Z),
    wf matrix ->
    (positive_counts matrix ->
     exists tf_matrix, TFIDF.create_tf_matrix matrix = Ok tf_matrix)
    /\ ((exists d terms t c, In (d, terms) matrix /\ In (t, c) terms /\ c <= 0) ->
        TFIDF.create_tf_matrix matrix = Raise ValueError).
Proof.
  intros matrix Hwf. split.
  - now apply create_tf_matrix_ok.
  - apply create_tf_matrix_value_error.
Qed.

Lemma corpus_ab_positive : positive_counts corpus_ab.
Proof.
  intros d terms t c Hd Ht. simpl in Hd.
  destruct Hd as [[= <- <-]|[[= <- <-]|[]]]; simpl in Ht;
    repeat (destruct Ht as [[= <- <-]|Ht]; [lia|]); destruct Ht.
Qed.

Lemma corpus_zero_wf : wf corpus_zero.
Proof. unfold wf; simpl. constructor; [intros []|constructor]. Qed.

Lemma corpus_zero_bad :
  exists d terms t c, In (d, terms) corpus_zero /\ In (t, c) terms /\ c <= 0.
Proof.
  exists "d1", [("a", 0)], "a", 0.
  split; [now left|]. split; [now left | lia].
Qed.

Lemma create_tf_matrix_defined_iff_positive_witness :
  (wf corpus_ab /\ positive_counts corpus_ab
   /\ exists tf_matrix, TFIDF.create_tf_matrix corpus_ab = Ok tf_matrix)
  /\ (wf corpus_zero
      /\ (exists d terms t c,
            In (d, terms) corpus_zero /\ In (t, c) terms /\ c <= 0)
      /\ TFIDF.create_tf_matrix corpus_zero = Raise ValueError).
Proof.
  split.
  - split; [exact corpus_ab_wf|]. split; [exact corpus_ab_positive|].
    exact (proj1 (create_tf_matrix_defined_iff_positive corpus_ab corpus_ab_wf)
             corpus_ab_positive).
  - split; [exact corpus_zero_wf|]. split; [exact corpus_zero_bad|].
    exact (proj2 (create_tf_matrix_defined_iff_positive corpus_zero corpus_zero_wf)
             corpus_zero_bad).
Defined.

Lemma In_update_inv {V} (d : dict V) (k : string) (v : V) (k' : string) (v' : V) :
  In (k', v') (update d k v) -> (k' = k /\ v' = v) \/ In (k', v') d.
Proof.
  induction d as [|[k0 v0] d IH]; simpl.
  - intros [[= <- <-]|[]]. now left.
  - destruct (String.eqb_spec k0 k) as [->|Hne]; simpl.
    + intros [[= <- <-]|H]; [now left | right; now right].
    + intros [H|H]; [right; now left|].
      destruct (IH H) as [E|Hin]; [now left | right; now right].
Qed.

(** Every term stored in a row of the term-frequency matrix is a term of
    some document. *)
Lemma create_tf_matrix_words (matrix : dict (dict Z)) (tf_matrix : dict (dict R)) :
  TFIDF.create_tf_matrix matrix = Ok tf_matrix ->
  forall d row w v,
    In (d, row) tf_matrix -> In (w, v) row -> 0 < containing matrix w.
Proof.
  unfold TFIDF.create_tf_matrix.
  pose (Inv := fun tf : dict (dict R) =>
                 forall d row w v, In (d, row) tf -> In (w, v) row ->
                                   0 < containing matrix w).
  apply (for_each_invariant Inv).
  2:{ intros d row w v []. }
  intros acc [d terms] acc' Hkv Hinv. simpl fst. simpl snd.
  destruct (TFIDF.get_max_freq_term matrix d) as [m|e]; simpl bind; [|discriminate].
  apply (for_each_invariant Inv); [|exact Hinv].
  intros acc0 [t c] acc1 Ht Hinv0. simpl fst. simpl snd.
  destruct (math_log10 (inject_Z c)) as [lc|e]; simpl bind; [|discriminate].
  destruct (math_log10 (inject_Z m)) as [lm|e]; simpl bind; [|discriminate].
  intros [= <-]. intros d' row' w v Hrow Hw.
  assert (Ht' : 0 < containing matrix t).
  { apply containing_pos_iff. exists d, terms. split; [exact Hkv|].
    change t with (fst (t, c)). now apply in_map. }
  unfold add_ele_to_matrix in Hrow.
  destruct (get acc0 d) as [row0|] eqn:Eg.
  - apply In_update_inv in Hrow. destruct Hrow as [[-> ->]|Hrow].
    + apply In_update_inv in Hw. destruct Hw as [[-> _]|Hw]; [exact Ht'|].
      apply get_Some_In in Eg. exact (Hinv0 _ _ _ _ Eg Hw).
    + exact (Hinv0 _ _ _ _ Hrow Hw).
  - apply In_update_inv in Hrow. destruct Hrow as [[-> ->]|Hrow].
    + destruct Hw as [[= <- _]|[]]. exact Ht'.
    + exact (Hinv0 _ _ _ _ Hrow Hw).
Qed.

(** X12. Constructing the engine from a corpus with pairwise distinct
    document identifiers succeeds when every stored count is at least 1,
    and the engine then holds the corpus and the idf vector of
    [create_idf_matrix]; it raises [ValueError] when some stored count is
    0 or negative. *)
Theorem TFIDF_init_defined_iff_positive :
  forall matrix : dict (dict Z),
    wf matrix ->
    (positive_counts matrix ->
     exists engine : TFIDF.TFIDF,
       TFIDF.init (Some matrix) = Ok engine
       /\ TFIDF.documents engine = matrix
       /\ TFIDF.create_idf_matrix matrix = Ok (TFIDF.idf_vector engine))
    /\ ((exists d terms t c, In (d, terms) matrix /\ In (t, c) terms /\ c <= 0) ->
        TFIDF.init (Some matrix) = Raise ValueError).
Proof.
  intros matrix Hwf.
  destruct (create_idf_matrix_get matrix) as (idf & Hidf & Hget).
  unfold TFIDF.init, TFIDF.create_tf_idf_matrix. rewrite Hidf. simpl bind.
  split.
  - intros Hpos.
    destruct (create_tf_matrix_ok matrix Hwf Hpos) as [tf Htf].
    rewrite Htf. simpl bind.
    pose proof (create_tf_matrix_words matrix tf Htf) as Hwords.
    match goal with
    | |- context [for_each tf ?body ?acc] =>
        assert (Hloop : exists r, for_each tf body acc = Ok r)
    end.
    { apply for_each_Ok_In. intros acc [d row] Hrow. simpl fst. simpl snd.
      apply for_each_Ok_In. intros acc' [w v] Hw. simpl fst. simpl snd.
      unfold getitem. rewrite Hget.
      pose proof (Hwords d row w v Hrow Hw) as Hc.
      destruct (Z.eqb_spec (containing matrix w) 0); [lia|]. simpl. eauto. }
    destruct Hloop as [tfidf Hloop]. rewrite Hloop. simpl.
    eexists. split; [reflexivity|]. simpl. split; reflexivity.
  - intros Hbad. now rewrite (create_tf_matrix_value_error matrix Hbad).
Qed.

Lemma TFIDF_init_defined_iff_positive_witness :
  (wf corpus_ab /\ positive_counts corpus_ab
   /\ exists engine : TFIDF.TFIDF,
        TFIDF.init (Some corpus_ab) = Ok engine
        /\ TFIDF.documents engine = corpus_ab
        /\ TFIDF.create_idf_matrix corpus_ab = Ok (TFIDF.idf_vector engine))
  /\ (wf corpus_zero
      /\ (exists d terms t c,
            In (d, terms) corpus_zero /\ In (t, c) terms /\ c <= 0)
      /\ TFIDF.init (Some corpus_zero) = Raise ValueError).
Proof.
  split.
  - split; [exact corpus_ab_wf|]. split; [exact corpus_ab_positive|].
    exact (proj1 (TFIDF_init_defined_iff_positive corpus_ab corpus_ab_wf)
             corpus_ab_positive).
  - split; [exact corpus_zero_wf|]. split; [exact corpus_zero_bad|].
    exact (proj2 (TFIDF_init_defined_iff_positive corpus_zero corpus_zero_wf)
             corpus_zero_bad).
Defined.

(* ------------------------------------------------------------------ *)
(** ** performance.py: the ranking *)

Section RankingFacts.

Context {A : Type} (key : A -> Q).

(** Inserting keeps the relative order of the elements of any one key. *)
Lemma insert_desc_filter_key (q : Q) (x : A) (l : list A) :
  filter (fun a => Qeq_bool (key a) q) (insert_desc key x l)
  = filter (fun a => Qeq_bool (key a) q) (x :: l).
Proof.
  induction l as [|y l IH]; [reflexivity|].
  cbn [insert_desc]. destruct (Qle_bool (key y) (key x)) eqn:E; [reflexivity|].
  cbn [filter] in *. rewrite IH.
  destruct (Qeq_bool (key x) q) eqn:Ex; [|reflexivity].
  destruct (Qeq_bool (key y) q) eqn:Ey; [|reflexivity].
  exfalso. apply Qeq_bool_iff in Ex, Ey.
  assert (Hle : (key y <= key x)%Q) by (rewrite Ex, Ey; apply Qle_refl).
  apply Qle_bool_iff in Hle. congruence.
Qed.

Lemma sorted_reverse_filter_key (q : Q) (l : list A) :
  filter (fun a => Qeq_bool (key a) q) (sorted_reverse key l)
  = filter (fun a => Qeq_bool (key a) q) l.
Proof.
  induction l as [|x l IH]; [reflexivity|].
  cbn [sorted_reverse fold_right]. fold (sorted_reverse key l).
  rewrite insert_desc_filter_key. cbn [filter]. now rewrite IH.
Qed.

(** Sorting a list that is already in decreasing order changes nothing. *)
Lemma sorted_reverse_sorted_id (l : list A) :
  StronglySorted (ge_key key) l -> sorted_reverse key l = l.
Proof.
  induction l as [|x l IH]; intros Hs; [reflexivity|].
  inversion Hs as [|? ? Hs' Hall]; subst.
  cbn [sorted_reverse fold_right]. fold (sorted_reverse key l).
  rewrite (IH Hs'). destruct l as [|y l]; [reflexivity|].
  cbn [insert_desc]. inversion Hall as [|? ? Hy _]; subst.
  apply Qle_bool_iff in Hy. now rewrite Hy.
Qed.

Lemma insert_desc_ext (key' : A -> Q) (x : A) (l : list A) :
  key' x = key x -> (forall a, In a l -> key' a = key a) ->
  insert_desc key' x l = insert_desc key x l.
Proof.
  intros Hx. induction l as [|y l IH]; intros Hl; [reflexivity|].
  cbn [insert_desc]. rewrite Hx, (Hl y (or_introl eq_refl)).
  destruct (Qle_bool (key y) (key x)); [reflexivity|].
  f_equal. apply IH. intros a Ha. apply Hl. now right.
Qed.

Lemma sorted_reverse_ext (key' : A -> Q) (l : list A) :
  (forall a, In a l -> key' a = key a) ->
  sorted_reverse key' l = sorted_reverse key l.
Proof.
  induction l as [|x l IH]; intros Hl; [reflexivity|].
  cbn [sorted_reverse fold_right].
  fold (sorted_reverse key' l). fold (sorted_reverse key l).
  rewrite IH by (intros a Ha; apply Hl; now right).
  apply insert_desc_ext.
  - apply Hl. now left.
  - intros a Ha. apply Hl. right.
    exact (Permutation_in _ (Permutation_sym (sorted_reverse_perm key l)) Ha).
Qed.

(** Filtering commutes with inserting into a sorted list. *)
Lemma insert_desc_filter (p : A -> bool) (x : A) (l : list A) :
  StronglySorted (ge_key key) l ->
  filter p (insert_desc key x l)
  = if p x then insert_desc key x (filter p l) else filter p l.
Proof.
  induction l as [|y l IH]; intros Hs.
  - cbn. destruct (p x); reflexivity.
  - inversion Hs as [|? ? Hs' Hall]; subst.
    cbn [insert_desc]. destruct (Qle_bool (key y) (key x)) eqn:E.
    + cbn [filter]. destruct (p x) eqn:Ex; [|reflexivity].
      destruct (p y) eqn:Ey.
      * cbn [insert_desc]. now rewrite E.
      * destruct (filter p l) as [|z l'] eqn:Ef; [reflexivity|].
        cbn [insert_desc].
        assert (Hz : In z l).
        { assert (H : In z (filter p l)) by (rewrite Ef; now left).
          apply filter_In in H. tauto. }
        rewrite Forall_forall in Hall. specialize (Hall z Hz).
        unfold ge_key in Hall. apply Qle_bool_iff in E.
        assert (Hle : (key z <= key x)%Q) by (now apply Qle_trans with (key y)).
        apply Qle_bool_iff in Hle. now rewrite Hle.
    + cbn [filter]. rewrite (IH Hs').
      destruct (p y) eqn:Ey; destruct (p x) eqn:Ex; try reflexivity.
      cbn [insert_desc]. now rewrite E.
Qed.

Lemma sorted_reverse_filter (p : A -> bool) (l : list A) :
  sorted_reverse key (filter p l) = filter p (sorted_reverse key l).
Proof.
  induction l as [|x l IH]; [reflexivity|].
  cbn [sorted_reverse fold_right filter]. fold (sorted_reverse key l).
  rewrite (insert_desc_filter p x _ (sorted_reverse_sorted key l)).
  destruct (p x); [|exact IH].
  cbn [sorted_reverse fold_right]. fold (sorted_reverse key (filter p l)).
  now rewrite IH.
Qed.

Lemma StronglySorted_firstn (R : A -> A -> Prop) (n : nat) (l : list A) :
  StronglySorted R l -> StronglySorted R (firstn n l).
Proof.
  revert n. induction l as [|x l IH]; intros n Hs.
  - rewrite firstn_nil. constructor.
  - destruct n as [|n]; [constructor|].
    inversion Hs as [|? ? Hs' Hall]; subst. cbn [firstn].
    constructor; [now apply IH|].
    rewrite Forall_forall in *. intros y Hy. apply Hall.
    rewrite <- (firstn_skipn n l). apply in_or_app. now left.
Qed.

End RankingFacts.

(** X13. The ranking used by every filter and metric,
    [sorted(scores, key=scores.get, reverse=True)], is a permutation of
    the keys of the score map in which no document is followed by one
    with a higher score. *)
Theorem ranking_sorted_permutation :
  forall scores : dict Q,
    Permutation (keys scores) (ranking scores)
    /\ StronglySorted (fun w w' => (score_of scores w' <= score_of scores w)%Q)
                      (ranking scores).
Proof.
  intros scores. split.
  - apply sorted_reverse_perm.
  - exact (sorted_reverse_sorted (score_of scores) (keys scores)).
Qed.

(** X14. The ranking is stable: the documents of any one score appear in
    the ranking in the order in which the score map holds them. *)
Theorem ranking_stable :
  forall (scores : dict Q) (q : Q),
    filter (fun w => Qeq_bool (score_of scores w) q) (ranking scores)
    = filter (fun w => Qeq_bool (score_of scores w) q) (keys scores).
Proof.
  intros scores q. apply sorted_reverse_filter_key.
Qed.

(* ------------------------------------------------------------------ *)
(** ** performance.py: the filters *)

(** A loop that copies the selected entries of a dictionary into a new
    one keeps them in their order. *)
Lemma fold_update_filter (p : string * Q -> bool) (scores : dict Q) :
  wf scores ->
  fold_left (fun filtered kv => if p kv then update filtered (fst kv) (snd kv)
                                else filtered) scores []
  = filter p scores.
Proof.
  unfold wf.
  enough (G : forall acc : dict Q,
            NoDup (keys acc ++ keys scores) ->
            fold_left (fun filtered kv => if p kv then update filtered (fst kv) (snd kv)
                                          else filtered) scores acc
            = (acc ++ filter p scores)%list).
  { intros H. now rewrite G. }
  induction scores as [|[w v] scores IH]; intros acc Hnd; cbn [fold_left filter].
  - now rewrite app_nil_r.
  - cbn [keys map fst] in Hnd.
    assert (Hfresh : ~ In w (keys acc)).
    { intros Hin. apply NoDup_remove_2 in Hnd. apply Hnd, in_or_app. now left. }
    destruct (p (w, v)); cbn [fst snd].
    + rewrite (update_fresh acc w v Hfresh), IH.
      * now rewrite <- app_assoc.
      * unfold keys in *. rewrite map_app. cbn. now rewrite <- app_assoc.
    + apply IH. now apply NoDup_remove_1 in Hnd.
Qed.

Lemma keys_filter (p : string * Q -> bool) (p' : string -> bool) (scores : dict Q) :
  (forall w v, In (w, v) scores -> p (w, v) = p' w) ->
  keys (filter p scores) = filter p' (keys scores).
Proof.
  induction scores as [|[w v] scores IH]; intros Hp; [reflexivity|].
  cbn [filter keys map fst]. rewrite <- (Hp w v (or_introl eq_refl)).
  fold (keys scores). rewrite <- IH by (intros w' v' H'; apply Hp; now right).
  destruct (p (w, v)); reflexivity.
Qed.

Lemma wf_filter (p : string * Q -> bool) (scores : dict Q) :
  wf scores -> wf (filter p scores).
Proof.
  unfold wf. induction scores as [|[w v] scores IH]; intros Hwf; [constructor|].
  cbn [keys map fst] in Hwf. inversion Hwf as [|? ? Hnotin Hwf']; subst.
  cbn [filter]. destruct (p (w, v)); [|now apply IH].
  cbn [keys map fst]. constructor; [|now apply IH].
  intros Hin. apply Hnotin. unfold keys in Hin. apply in_map_iff in Hin.
  destruct Hin as ([w' v'] & Hw & Hin). cbn in Hw. subst w'.
  apply filter_In in Hin. change w with (fst (w, v')). apply in_map. tauto.
Qed.

Lemma score_of_sub (scores sub : dict Q) (w : string) :
  wf scores -> wf sub -> incl sub scores ->
  In w (keys sub) -> score_of sub w = score_of scores w.
Proof.
  intros Hwf Hwfs Hincl Hin.
  pose proof (In_score_of sub w Hin) as Hs.
  symmetry. apply score_of_In; [exact Hwf | now apply Hincl].
Qed.

Lemma filter_relevance_by_threshold_filter (scores : dict Q) (threshold : Q) :
  wf scores ->
  filter_relevance_by_threshold scores threshold
  = filter (fun kv => negb (Qle_bool (snd kv) threshold)) scores.
Proof.
  intros Hwf. unfold filter_relevance_by_threshold.
  exact (fold_update_filter (fun kv => negb (Qle_bool (snd kv) threshold))
           scores Hwf).
Qed.

Lemma filter_relevance_by_threshold_spec_aux (scores : dict Q) (threshold : Q) :
  wf scores ->
  forall w v,
    In (w, v) (filter_relevance_by_threshold scores threshold)
    <-> In (w, v) scores /\ (threshold < v)%Q.
Proof.
  intros Hwf w v. rewrite (filter_relevance_by_threshold_filter _ _ Hwf), filter_In.
  cbn [snd]. split; intros [Hin Hv]; (split; [exact Hin|]).
  - destruct (Qlt_le_dec threshold v) as [Hlt|Hle]; [exact Hlt|].
    apply Qle_bool_iff in Hle. rewrite Hle in Hv. discriminate Hv.
  - destruct (Qle_bool v threshold) eqn:El; [|reflexivity].
    apply Qle_bool_iff in El. exfalso. exact (Qlt_not_le _ _ Hv El).
Qed.

(** X15. For a score map (pairwise distinct keys)
    [filter_relevance_by_threshold] returns, in their order, exactly the
    entries whose score is strictly greater than the threshold; an entry
    that equals the threshold is excluded. *)
Theorem filter_relevance_by_threshold_spec :
  forall (scores : dict Q) (threshold : Q),
    wf scores ->
    filter_relevance_by_threshold scores threshold
    = filter (fun kv => negb (Qle_bool (snd kv) threshold)) scores
    /\ (forall w v,
          In (w, v) (filter_relevance_by_threshold scores threshold)
          <-> In (w, v) scores /\ (threshold < v)%Q).
Proof.
  intros scores threshold Hwf. split.
  - now apply filter_relevance_by_threshold_filter.
  - now apply filter_relevance_by_threshold_spec_aux.
Qed.

Lemma filter_relevance_by_threshold_spec_witness :
  wf six_scores
  /\ filter_relevance_by_threshold six_scores 0.3
     = filter (fun kv => negb (Qle_bool (snd kv) 0.3)) six_scores
  /\ (forall w v,
        In (w, v) (filter_relevance_by_threshold six_scores 0.3)
        <-> In (w, v) six_scores /\ (0.3 < v)%Q).
Proof.
  split; [exact six_scores_wf|].
  exact (filter_relevance_by_threshold_spec six_scores 0.3 six_scores_wf).
Defined.

(** X16. For a score map [filter_pred_negative] returns exactly the
    entries whose score is 0, and no document is both in it and in the
    threshold filtering at 0. *)
Theorem filter_pred_negative_spec :
  forall scores : dict Q,
    wf scores ->
    (forall w v,
       In (w, v) (filter_pred_negative scores) <-> In (w, v) scores /\ (v == 0)%Q)
    /\ (forall w,
          In w (keys (filter_pred_negative scores)) ->
          ~ In w (keys (filter_relevance_by_threshold scores 0))).
Proof.
  intros scores Hwf.
  assert (E : filter_pred_negative scores
              = filter (fun kv => Qeq_bool (snd kv) 0) scores).
  { unfold filter_pred_negative.
    exact (fold_update_filter (fun kv => Qeq_bool (snd kv) 0) scores Hwf). }
  assert (Hmem : forall w v,
             In (w, v) (filter_pred_negative scores)
             <-> In (w, v) scores /\ (v == 0)%Q).
  { intros w v. rewrite E, filter_In. cbn [snd]. now rewrite Qeq_bool_iff. }
  split; [exact Hmem|].
  intros w Hneg Hpos.
  unfold keys in Hneg, Hpos. apply in_map_iff in Hneg, Hpos.
  destruct Hneg as ([w1 v1] & E1 & H1). destruct Hpos as ([w2 v2] & E2 & H2).
  cbn in E1, E2. subst w1 w2.
  apply Hmem in H1. destruct H1 as [H1 Hz].
  apply (filter_relevance_by_threshold_spec_aux scores 0 Hwf) in H2.
  destruct H2 as [H2 Hgt].
  assert (v1 = v2).
  { apply (get_wf_In _ _ _ Hwf) in H1, H2. congruence. }
  subst v2. rewrite Hz in Hgt. exact (Qlt_irrefl _ Hgt).
Qed.

Lemma filter_pred_negative_spec_witness :
  wf six_scores
  /\ (forall w v,
        In (w, v) (filter_pred_negative six_scores)
        <-> In (w, v) six_scores /\ (v == 0)%Q)
  /\ (forall w,
        In w (keys (filter_pred_negative six_scores)) ->
        ~ In w (keys (filter_relevance_by_threshold six_scores 0))).
Proof.
  split; [exact six_scores_wf|].
  exact (filter_pred_negative_spec six_scores six_scores_wf).
Defined.

(** X17. The ranking of the top-k filtering is the first [top_k]
    documents of the ranking of the whole score map: a metric evaluated
    with [top_k > 0] walks exactly the head of the full ranking. *)
Theorem ranking_of_top_k :
  forall (scores : dict Q) (top_k : Z),
    wf scores ->
    ranking (filter_relevance_by_top_k scores top_k)
    = firstn (Z.to_nat top_k) (ranking scores).
Proof.
  intros scores top_k Hwf.
  rewrite (filter_relevance_by_top_k_firstn scores top_k Hwf).
  set (L := firstn (Z.to_nat top_k) (ranking scores)).
  set (filtered := map (fun w => (w, score_of scores w)) L).
  assert (HL : forall w, In w L -> In w (keys scores)).
  { intros w Hw. apply (Permutation_in _ (Permutation_sym (ranking_perm scores))).
    rewrite <- (firstn_skipn (Z.to_nat top_k) (ranking scores)).
    apply in_or_app. now left. }
  assert (Hkeys : keys filtered = L).
  { unfold filtered, keys. rewrite map_map. cbn. apply map_id. }
  assert (Hnd : NoDup L).
  { pose proof (ranking_NoDup scores Hwf) as H.
    rewrite <- (firstn_skipn (Z.to_nat top_k) (ranking scores)) in H.
    now apply NoDup_app_remove_r in H. }
  assert (Hincl : incl filtered scores).
  { intros [w v] Hin. unfold filtered in Hin. apply in_map_iff in Hin.
    destruct Hin as (w0 & [= <- <-] & Hw0). apply In_score_of. now apply HL. }
  unfold ranking at 1. rewrite Hkeys.
  rewrite (sorted_reverse_ext (score_of scores) (score_of filtered) L).
  - apply sorted_reverse_sorted_id. apply StronglySorted_firstn.
    exact (sorted_reverse_sorted (score_of scores) (keys scores)).
  - intros w Hw. apply score_of_sub; [exact Hwf | | exact Hincl |].
    + unfold wf. now rewrite Hkeys.
    + now rewrite Hkeys.
Qed.

Lemma ranking_of_top_k_witness :
  wf six_scores
  /\ ranking (filter_relevance_by_top_k six_scores 4)
     = firstn (Z.to_nat 4) (ranking six_scores).
Proof.
  split; [exact six_scores_wf|].
  exact (ranking_of_top_k six_scores 4 six_scores_wf).
Defined.

(** X18. The ranking of the threshold filtering is the ranking of the
    whole score map with the documents at or below the threshold left
    out: filtering and ranking commute. *)
Theorem ranking_of_threshold :
  forall (scores : dict Q) (threshold : Q),
    wf scores ->
    ranking (filter_relevance_by_threshold scores threshold)
    = filter (fun w => negb (Qle_bool (score_of scores w) threshold))
             (ranking scores).
Proof.
  intros scores threshold Hwf.
  rewrite (filter_relevance_by_threshold_filter scores threshold Hwf).
  set (p := fun kv : string * Q => negb (Qle_bool (snd kv) threshold)).
  set (p' := fun w => negb (Qle_bool (score_of scores w) threshold)).
  assert (Hkeys : keys (filter p scores) = filter p' (keys scores)).
  { apply keys_filter. intros w v Hin. unfold p, p'. cbn [snd].
    now rewrite (score_of_In scores w v Hwf Hin). }
  unfold ranking. rewrite Hkeys.
  rewrite (sorted_reverse_ext (score_of scores) (score_of (filter p scores))).
  - apply sorted_reverse_filter.
  - intros w Hw. apply score_of_sub.
    + exact Hwf.
    + now apply wf_filter.
    + intros kv Hkv. apply filter_In in Hkv. tauto.
    + now rewrite Hkeys.
Qed.

Lemma ranking_of_threshold_witness :
  wf six_scores
  /\ ranking (filter_relevance_by_threshold six_scores 0.3)
     = filter (fun w => negb (Qle_bool (score_of six_scores w) 0.3))
              (ranking six_scores).
Proof.
  split; [exact six_scores_wf|].
  exact (ranking_of_threshold six_scores 0.3 six_scores_wf).
Defined.

(* ------------------------------------------------------------------ *)
(** ** performance.py: counting and F1 *)

Lemma index_of_None (x : string) (l : list string) :
  index_of x l = None <-> ~ In x l.
Proof.
  induction l as [|y l IH]; cbn [index_of In].
  - tauto.
  - destruct (String.eqb_spec y x) as [->|Hne].
    + split; [discriminate | intros H; exfalso; apply H; now left].
    + destruct (index_of x l) as [i|]; cbn [option_map].
      * split; [discriminate|]. intros H. exfalso. apply H. right.
        destruct (in_dec string_dec x l) as [Hin|Hout]; [exact Hin|].
        apply IH in Hout. discriminate Hout.
      * split; [|reflexivity]. intros _ [E|Hin]; [congruence|].
        now apply (proj1 IH).
Qed.

Lemma index_of_lt (x : string) (l : list string) (i : nat) :
  index_of x l = Some i -> (i < List.length l)%nat.
Proof.
  revert i. induction l as [|y l IH]; intros i; cbn [index_of List.length].
  - discriminate.
  - destruct (String.eqb_spec y x) as [->|Hne].
    + intros [= <-]. lia.
    + destruct (index_of x l) as [j|]; cbn [option_map]; [|discriminate].
      intros [= <-]. specialize (IH j eq_refl). lia.
Qed.

Lemma count_relevant_aligned (ids : list string) (rel : list Z) :
  List.length ids = List.length rel ->
  forall (docs : list string) (count : Z),
    exists n : Z,
      count_relevant docs ids rel count = Some n
      /\ count <= n <= count + Z.of_nat (List.length docs)
      /\ ((forall w, In w docs -> ~ In w ids) -> n = count).
Proof.
  intros Hlen. induction docs as [|doc docs IH]; intros count.
  - exists count. cbn. split; [reflexivity|]. split; [lia | reflexivity].
  - cbn [count_relevant List.length]. rewrite Nat2Z.inj_succ.
    destruct (index_of doc ids) as [i|] eqn:Ei.
    + pose proof (index_of_lt _ _ _ Ei) as Hi.
      destruct (nth_error rel i) as [r|] eqn:Er.
      2:{ apply nth_error_None in Er. lia. }
      destruct (IH (if r >? 0 then count + 1 else count)) as (n & Hn & Hb & _).
      exists n. split; [exact Hn|]. split.
      * destruct (r >? 0); lia.
      * intros Hnone. exfalso. apply (Hnone doc (or_introl eq_refl)).
        destruct (in_dec string_dec doc ids) as [H|H]; [exact H|].
        apply index_of_None in H. congruence.
    + destruct (IH count) as (n & Hn & Hb & Hz).
      exists n. split; [exact Hn|]. split; [lia|].
      intros Hnone. apply Hz. intros w Hw. apply Hnone. now right.
Qed.

(** X19. With a ground truth whose two lists have the same length,
    [get_true_positives] never raises; the count lies between 0 and the
    number of retrieved documents, and it is 0 when no retrieved document
    occurs in the ground truth (such documents are skipped). *)
Theorem get_true_positives_bounds :
  forall (total_retrieved : dict Q) (actual_doc_ids : list string)
         (actual_relevance : list Z),
    List.length actual_doc_ids = List.length actual_relevance ->
    exists n : Z,
      get_true_positives total_retrieved actual_doc_ids actual_relevance = Some n
      /\ 0 <= n <= Z.of_nat (List.length total_retrieved)
      /\ ((forall w, In w (keys total_retrieved) -> ~ In w actual_doc_ids) ->
          n = 0).
Proof.
  intros total_retrieved ids rel Hlen. unfold get_true_positives.
  destruct (count_relevant_aligned ids rel Hlen (keys total_retrieved) 0)
    as (n & Hn & Hb & Hz).
  exists n. split; [exact Hn|]. rewrite length_keys in Hb. split; [lia | exact Hz].
Qed.

Lemma get_true_positives_bounds_witness :
  List.length (col_docid actual_q1) = List.length (col_rel actual_q1)
  /\ exists n : Z,
       get_true_positives predicted_q1 (col_docid actual_q1) (col_rel actual_q1)
       = Some n
       /\ 0 <= n <= Z.of_nat (List.length predicted_q1)
       /\ ((forall w, In w (keys predicted_q1) -> ~ In w (col_docid actual_q1)) ->
           n = 0).
Proof.
  split; [reflexivity|].
  exact (get_true_positives_bounds predicted_q1 (col_docid actual_q1)
           (col_rel actual_q1) eq_refl).
Defined.



(* ------------------------------------------------------------------ *)
(** ** performance.py: average precision and reciprocal rank *)

Lemma precision_loop_unit (ids : list string) (rel : list Z) :
  forall (ranked : list string) (index count : Z) (arr : list Q),
    0 <= count <= index ->
    Forall unit_interval arr ->
    exists arr' : list Q,
      AveragePrecision.precision_loop ids rel ranked index count arr = Ok arr'
      /\ Forall unit_interval arr'.
Proof.
  induction ranked as [|docs ranked IH]; intros index count arr Hc Harr.
  - exists arr. split; [reflexivity | exact Harr].
  - cbn [AveragePrecision.precision_loop].
    destruct (relevant_label ids rel docs) as [[|]|].
    + unfold true_div. destruct (Z.eqb_spec (index + 1) 0) as [E|_]; [lia|].
      cbn [bind]. apply IH; [lia|].
      apply Forall_app. split; [exact Harr|]. constructor; [|constructor].
      split.
      * apply Qlt_shift_div_l; [unfold Qlt; cbn; lia|].
        rewrite Qmult_0_l. unfold Qlt; cbn. lia.
      * apply Qle_shift_div_r; [unfold Qlt; cbn; lia|].
        rewrite Qmult_1_l. unfold Qle; cbn. lia.
    + apply IH; [lia | exact Harr].
    + apply IH; [lia | exact Harr].
Qed.

Lemma sum_unit_bounds (arr : list Q) :
  Forall unit_interval arr ->
  forall acc : Q,
    (acc <= fold_left Qplus arr acc)%Q
    /\ (fold_left Qplus arr acc <= acc + inject_Z (Z.of_nat (List.length arr)))%Q.
Proof.
  induction 1 as [|q arr [Hq0 Hq1] Harr IH]; intros acc.
  - cbn. split; [apply Qle_refl|]. unfold inject_Z. lra.
  - cbn [fold_left List.length]. destruct (IH (acc + q)%Q) as [Hlo Hhi].
    rewrite Nat2Z.inj_succ. unfold Z.succ. rewrite inject_Z_plus.
    split; [lra|].
    change (inject_Z 1) with 1%Q. lra.
Qed.

(** X21. [avg_precision_score] never raises and its value lies between 0
    and 1, whatever the predicted scores, the ground truth, the threshold
    and [top_k]. *)
Theorem avg_precision_score_in_unit_interval :
  forall (predicted : dict Q) (actual : DataFrame) (threshold : Q) (top_k : Z),
    exists ap : Q,
      AveragePrecision.avg_precision_score predicted actual threshold top_k = Ok ap
      /\ (0 <= ap)%Q /\ (ap <= 1)%Q.
Proof.
  intros predicted actual threshold top_k.
  unfold AveragePrecision.avg_precision_score.
  destruct (precision_loop_unit (col_docid actual) (col_rel actual)
              (ranking (filter_ranked_list predicted top_k threshold)) 0 0 [])
    as (arr & Hloop & Harr).
  { lia. }
  { constructor. }
  rewrite Hloop. cbn [bind].
  destruct (Z.gtb_spec (Z.of_nat (List.length arr)) 0) as [Hpos|Hzero].
  - unfold float_div. destruct (Z.eqb_spec (Z.of_nat (List.length arr)) 0); [lia|].
    eexists. split; [reflexivity|].
    destruct (sum_unit_bounds arr Harr 0%Q) as [Hlo Hhi].
    assert (Hlen : (0 < inject_Z (Z.of_nat (List.length arr)))%Q)
      by (unfold Qlt; cbn; lia).
    split.
    + apply Qle_shift_div_l; [exact Hlen|]. lra.
    + apply Qle_shift_div_r; [exact Hlen|]. lra.
  - exists 0%Q. split; [reflexivity|]. split; [apply Qle_refl | discriminate].
Qed.

Lemma precision_loop_irrelevant (ids : list string) (rel : list Z) :
  forall (ranked : list string) (index count : Z) (arr : list Q),
    (forall d, In d ranked -> relevant_label ids rel d <> Some true) ->
    AveragePrecision.precision_loop ids rel ranked index count arr = Ok arr.
Proof.
  induction ranked as [|docs ranked IH]; intros index count arr Hnone; [reflexivity|].
  cbn [AveragePrecision.precision_loop].
  pose proof (Hnone docs (or_introl eq_refl)) as Hd.
  destruct (relevant_label ids rel docs) as [[|]|]; [congruence| |];
    apply IH; intros d Hin; apply Hnone; now right.
Qed.

Lemma precision_loop_relevant_prefix (ids : list string) (rel : list Z)
  (rest : list string) :
  forall (ranked : list string) (n : Z) (arr : list Q),
    0 <= n ->
    (forall d, In d ranked -> relevant_label ids rel d = Some true) ->
    exists ones : list Q,
      List.length ones = List.length ranked
      /\ Forall (fun q => (q == 1)%Q) ones
      /\ AveragePrecision.precision_loop ids rel (ranked ++ rest) n n arr
         = AveragePrecision.precision_loop ids rel rest
             (n + Z.of_nat (List.length ranked))
             (n + Z.of_nat (List.length ranked)) (arr ++ ones).
Proof.
  induction ranked as [|docs ranked IH]; intros n arr Hn Hall.
  - exists []. cbn. rewrite app_nil_r, Z.add_0_r. repeat split; constructor.
  - cbn [app AveragePrecision.precision_loop].
    rewrite (Hall docs (or_introl eq_refl)).
    unfold true_div. destruct (Z.eqb_spec (n + 1) 0) as [E|_]; [lia|].
    cbn [bind].
    destruct (IH (n + 1) (arr ++ [(inject_Z (n + 1) / inject_Z (n + 1))%Q])%list)
      as (ones & Hlen & Hones & Hloop).
    { lia. }
    { intros d Hd. apply Hall. now right. }
    exists ((inject_Z (n + 1) / inject_Z (n + 1))%Q :: ones).
    split; [cbn; now rewrite Hlen|]. split.
    + constructor; [|exact Hones].
      unfold Qdiv. apply Qmult_inv_r. unfold Qeq; cbn. lia.
    + rewrite Hloop. cbn [List.length]. rewrite Nat2Z.inj_succ.
      rewrite <- app_assoc. cbn [app].
      replace (n + 1 + Z.of_nat (List.length ranked))
        with (n + Z.succ (Z.of_nat (List.length ranked))) by lia.
      reflexivity.
Qed.

Lemma sum_ones (ones : list Q) :
  Forall (fun q => (q == 1)%Q) ones ->
  forall acc : Q,
    (fold_left Qplus ones acc == acc + inject_Z (Z.of_nat (List.length ones)))%Q.
Proof.
  induction 1 as [|q ones Hq Hones IH]; intros acc.
  - cbn. unfold inject_Z. ring.
  - cbn [fold_left List.length]. rewrite IH, Hq, Nat2Z.inj_succ.
    unfold Z.succ. rewrite inject_Z_plus. change (inject_Z 1) with 1%Q. ring.
Qed.

(** X22. When the ranking of the retrieved set puts relevant documents
    (label 1) first and no relevant document after them, the average
    precision is 1. *)
Theorem avg_precision_score_perfect_ranking :
  forall (predicted : dict Q) (actual : DataFrame) (threshold : Q) (top_k : Z)
         (relevant others : list string),
    ranking (filter_ranked_list predicted top_k threshold)
    = (relevant ++ others)%list ->
    relevant <> [] ->
    (forall d, In d relevant ->
               relevant_label (col_docid actual) (col_rel actual) d = Some true) ->
    (forall d, In d others ->
               relevant_label (col_docid actual) (col_rel actual) d <> Some true) ->
    exists ap : Q,
      AveragePrecision.avg_precision_score predicted actual threshold top_k = Ok ap
      /\ (ap == 1)%Q.
Proof.
  intros predicted actual threshold top_k relevant others Hrank Hne Hrel Hoth.
  unfold AveragePrecision.avg_precision_score. rewrite Hrank.
  destruct (precision_loop_relevant_prefix (col_docid actual) (col_rel actual)
              others relevant 0 [] (Z.le_refl 0) Hrel)
    as (ones & Hlen & Hones & Hloop).
  rewrite Hloop, (precision_loop_irrelevant _ _ _ _ _ _ Hoth). cbn [bind app].
  assert (Hpos : 0 < Z.of_nat (List.length ones)).
  { rewrite Hlen. destruct relevant; [congruence | cbn; lia]. }
  destruct (Z.gtb_spec (Z.of_nat (List.length ones)) 0) as [_|H]; [|lia].
  unfold float_div. destruct (Z.eqb_spec (Z.of_nat (List.length ones)) 0); [lia|].
  eexists. split; [reflexivity|].
  rewrite (sum_ones ones Hones 0%Q), Qplus_0_l.
  unfold Qdiv. apply Qmult_inv_r. unfold Qeq; cbn. lia.
Qed.

Lemma avg_precision_score_perfect_ranking_witness :
  ranking (filter_ranked_list predicted_perfect (-1) 0) = (["d1"; "d3"] ++ ["d2"])%list
  /\ ["d1"; "d3"] <> []
  /\ (forall d, In d ["d1"; "d3"] ->
                relevant_label (col_docid actual_q1) (col_rel actual_q1) d = Some true)
  /\ (forall d, In d ["d2"] ->
                relevant_label (col_docid actual_q1) (col_rel actual_q1) d <> Some true)
  /\ exists ap : Q,
       AveragePrecision.avg_precision_score predicted_perfect actual_q1 0 (-1) = Ok ap
       /\ (ap == 1)%Q.
Proof.
  assert (H1 : ranking (filter_ranked_list predicted_perfect (-1) 0)
               = (["d1"; "d3"] ++ ["d2"])%list) by reflexivity.
  assert (H2 : ["d1"; "d3"] <> []) by discriminate.
  assert (H3 : forall d, In d ["d1"; "d3"] ->
                 relevant_label (col_docid actual_q1) (col_rel actual_q1) d = Some true).
  { intros d [<-|[<-|[]]]; reflexivity. }
  assert (H4 : forall d, In d ["d2"] ->
                 relevant_label (col_docid actual_q1) (col_rel actual_q1) d <> Some true).
  { intros d [<-|[]]. discriminate. }
  split; [exact H1|]. split; [exact H2|]. split; [exact H3|]. split; [exact H4|].
  exact (avg_precision_score_perfect_ranking predicted_perfect actual_q1 0 (-1)
           ["d1"; "d3"] ["d2"] H1 H2 H3 H4).
Defined.

Lemma rank_loop_skip (ids : list string) (rel : list Z) (rest : list string) :
  forall (skipped : list string) (index : Z),
    (forall d, In d skipped -> relevant_label ids rel d <> Some true) ->
    ReciprocalRank.rank_loop ids rel (skipped ++ rest) index
    = ReciprocalRank.rank_loop ids rel rest (index + Z.of_nat (List.length skipped)).
Proof.
  induction skipped as [|docs skipped IH]; intros index Hnone.
  - cbn. now rewrite Z.add_0_r.
  - cbn [app ReciprocalRank.rank_loop List.length].
    pose proof (Hnone docs (or_introl eq_refl)) as Hd.
    rewrite Nat2Z.inj_succ.
    replace (index + Z.succ (Z.of_nat (List.length skipped)))
      with (index + 1 + Z.of_nat (List.length skipped)) by lia.
    destruct (relevant_label ids rel docs) as [[|]|]; [congruence| |];
      apply IH; intros d Hin; apply Hnone; now right.
Qed.

(** X23. [ReciprocalRank.rank] is [1/n] when the first relevant document
    (label 1) of the ranking of the retrieved set is at position [n],
    documents without a label or with another label being passed over,
    and 0 when the ranking holds no relevant document. *)
Theorem reciprocal_rank_first_relevant :
  forall (predicted : dict Q) (actual : DataFrame) (threshold : Q) (top_k : Z),
    (forall (before : list string) (d : string) (after : list string),
       ranking (filter_ranked_list predicted top_k threshold)
       = (before ++ d :: after)%list ->
       (forall x, In x before ->
                  relevant_label (col_docid actual) (col_rel actual) x <> Some true) ->
       relevant_label (col_docid actual) (col_rel actual) d = Some true ->
       ReciprocalRank.rank predicted actual threshold top_k
       = Ok (1 / inject_Z (Z.of_nat (List.length before) + 1))%Q)
    /\ ((forall x, In x (ranking (filter_ranked_list predicted top_k threshold)) ->
                   relevant_label (col_docid actual) (col_rel actual) x <> Some true) ->
        ReciprocalRank.rank predicted actual threshold top_k = Ok 0%Q).
Proof.
  intros predicted actual threshold top_k. unfold ReciprocalRank.rank. split.
  - intros before d after Hrank Hbefore Hd.
    rewrite Hrank, (rank_loop_skip _ _ _ _ _ Hbefore).
    cbn [ReciprocalRank.rank_loop]. rewrite Hd. unfold true_div.
    rewrite Z.add_0_l.
    destruct (Z.eqb_spec (Z.of_nat (List.length before) + 1) 0); [lia | reflexivity].
  - intros Hnone.
    rewrite <- (app_nil_r (ranking _)), (rank_loop_skip _ _ _ _ _ Hnone).
    reflexivity.
Qed.

Lemma reciprocal_rank_first_relevant_witness :
  (ranking (filter_ranked_list six_scores (-1) 0)
   = (["d2"; "d4"; "d6"] ++ "d1" :: ["d3"])%list
   /\ (forall x, In x ["d2"; "d4"; "d6"] ->
                 relevant_label (col_docid actual_q1) (col_rel actual_q1) x <> Some true)
   /\ relevant_label (col_docid actual_q1) (col_rel actual_q1) "d1" = Some true
   /\ ReciprocalRank.rank six_scores actual_q1 0 (-1)
      = Ok (1 / inject_Z (Z.of_nat (List.length ["d2"; "d4"; "d6"]) + 1))%Q)
  /\ ((forall x, In x (ranking (filter_ranked_list six_scores (-1) 0)) ->
                 relevant_label (col_docid []) (col_rel []) x <> Some true)
      /\ ReciprocalRank.rank six_scores [] 0 (-1) = Ok 0%Q).
Proof.
  assert (H1 : ranking (filter_ranked_list six_scores (-1) 0)
               = (["d2"; "d4"; "d6"] ++ "d1" :: ["d3"])%list) by reflexivity.
  assert (H2 : forall x, In x ["d2"; "d4"; "d6"] ->
                 relevant_label (col_docid actual_q1) (col_rel actual_q1) x <> Some true).
  { intros x [<-|[<-|[<-|[]]]]; discriminate. }
  assert (H3 : relevant_label (col_docid actual_q1) (col_rel actual_q1) "d1" = Some true)
    by reflexivity.
  assert (H4 : forall x, In x (ranking (filter_ranked_list six_scores (-1) 0)) ->
                 relevant_label (col_docid []) (col_rel []) x <> Some true).
  { intros x _. discriminate. }
  split.
  - split; [exact H1|]. split; [exact H2|]. split; [exact H3|].
    exact (proj1 (reciprocal_rank_first_relevant six_scores actual_q1 0 (-1))
             ["d2"; "d4"; "d6"] "d1" ["d3"] H1 H2 H3).
  - split; [exact H4|].
    exact (proj2 (reciprocal_rank_first_relevant six_scores [] 0 (-1)) H4).
Defined.


(* ------------------------------------------------------------------ *)
(** ** performance.py: the batch evaluations *)

Lemma rank_ok (predicted : dict Q) (actual : DataFrame) (threshold : Q) (top_k : Z) :
  exists rr : Q, ReciprocalRank.rank predicted actual threshold top_k = Ok rr.
Proof.
  unfold ReciprocalRank.rank.
  generalize (ranking (filter_ranked_list predicted top_k threshold)).
  enough (G : forall (l : list string) (index : Z),
            0 <= index ->
            exists rr, ReciprocalRank.rank_loop (col_docid actual) (col_rel actual)
                         l index = Ok rr).
  { intros l. apply G. lia. }
  induction l as [|d l IH]; intros index Hi; cbn [ReciprocalRank.rank_loop].
  - eauto.
  - destruct (relevant_label _ _ d) as [[|]|]; try (apply IH; lia).
    unfold true_div. destruct (Z.eqb_spec (index + 1) 0); [lia | eauto].
Qed.

Lemma avg_precision_score_ok (predicted : dict Q) (actual : DataFrame)
  (threshold : Q) (top_k : Z) :
  exists ap : Q,
    AveragePrecision.avg_precision_score predicted actual threshold top_k = Ok ap.
Proof.
  unfold AveragePrecision.avg_precision_score.
  destruct (precision_loop_unit (col_docid actual) (col_rel actual)
              (ranking (filter_ranked_list predicted top_k threshold)) 0 0 [])
    as (arr & Hloop & _); [lia | constructor |].
  rewrite Hloop. cbn [bind].
  destruct (Z.gtb_spec (Z.of_nat (List.length arr)) 0) as [Hpos|Hzero]; [|eauto].
  unfold float_div. destruct (Z.eqb_spec (Z.of_nat (List.length arr)) 0); [lia | eauto].
Qed.

Lemma for_each_unchanged {A S} (body : S -> A -> result S) (l : list A) (acc : S) :
  (forall x, In x l -> body acc x = Ok acc) ->
  for_each l body acc = Ok acc.
Proof.
  induction l as [|x l IH]; intros H; [reflexivity|].
  cbn [for_each]. rewrite (H x (or_introl eq_refl)). cbn [bind].
  apply IH. intros y Hy. apply H. now right.
Qed.

Section BatchFacts.

Variable TrueLabels : Type.
Variable lookup : string -> TrueLabels -> result DataFrame.
Variable true_labels : TrueLabels.
Variable predicted_scores : dict (dict Q).
Variable top_k : Z.
Variable threshold : Q.

Lemma calculate_mrr_loop :
  forall (queries : list string) (ranks : list Q),
    (forall q, In q queries -> exists y, lookup q true_labels = Ok y) ->
    exists added : list Q,
      calculate_mrr TrueLabels lookup ranks queries true_labels predicted_scores
        top_k threshold
      = Ok ((ranks ++ added)%list,
            ReciprocalRank.mean_reciprocal_rank (ranks ++ added))
      /\ List.length added
         = List.length (filter (fun q => mem predicted_scores q) queries).
Proof.
  unfold calculate_mrr.
  induction queries as [|q queries IH]; intros ranks Hlookup.
  - exists []. cbn. now rewrite app_nil_r.
  - cbn [for_each filter].
    destruct (Hlookup q (or_introl eq_refl)) as [y Hy]. rewrite Hy. cbn [bind].
    unfold getitem, mem.
    destruct (get predicted_scores q) as [y_pred|] eqn:Eg; cbn [bind].
    + destruct (rank_ok y_pred y threshold top_k) as [rr Hrr]. rewrite Hrr.
      destruct (IH (ReciprocalRank.add_rank ranks rr)) as (added & Hloop & Hlen).
      { intros q' Hq'. apply Hlookup. now right. }
      exists (rr :: added). unfold ReciprocalRank.add_rank in Hloop.
      rewrite <- app_assoc in Hloop. cbn [app] in Hloop.
      split; [exact Hloop|]. cbn. now rewrite Hlen.
    + destruct (IH ranks) as (added & Hloop & Hlen).
      { intros q' Hq'. apply Hlookup. now right. }
      exists added. split; [exact Hloop | exact Hlen].
Qed.

Lemma calculate_map_loop :
  forall (queries : list string) (precision_scores : dict Q),
    (forall q, In q queries -> exists y, lookup q true_labels = Ok y) ->
    wf precision_scores ->
    exists (scores' : dict Q) (map_score : Q),
      calculate_map TrueLabels lookup precision_scores queries true_labels
        predicted_scores top_k threshold
      = Ok (scores', map_score)
      /\ wf scores'
      /\ AveragePrecision.mean_avg_precision scores' = Ok map_score
      /\ (forall q, In q (keys scores')
                    <-> In q (keys precision_scores)
                        \/ (In q queries /\ mem predicted_scores q = true)).
Proof.
  unfold calculate_map.
  induction queries as [|q queries IH]; intros precision_scores Hlookup Hwf.
  - cbn [for_each bind].
    destruct (mean_avg_precision_total precision_scores) as [m Hm].
    rewrite Hm. cbn [bind]. exists precision_scores, m.
    split; [reflexivity|]. split; [exact Hwf|]. split; [exact Hm|].
    intros q. cbn. tauto.
  - cbn [for_each].
    destruct (Hlookup q (or_introl eq_refl)) as [y Hy]. rewrite Hy. cbn [bind].
    unfold getitem.
    destruct (get predicted_scores q) as [y_pred|] eqn:Eg; cbn [bind].
    + destruct (avg_precision_score_ok y_pred y threshold top_k) as [ap Hap].
      rewrite Hap.
      destruct (IH (AveragePrecision.add_precision_score precision_scores q ap))
        as (scores' & m & Hloop & Hwf' & Hm & Hkeys).
      { intros q' Hq'. apply Hlookup. now right. }
      { now apply wf_update. }
      exists scores', m. split; [exact Hloop|]. split; [exact Hwf'|].
      split; [exact Hm|].
      intros q0. rewrite Hkeys. unfold AveragePrecision.add_precision_score.
      rewrite In_keys_update. cbn [In]. unfold mem at 2.
      split.
      * intros [[->|H]|[H1 H2]]; [right|now left|right; tauto].
        split; [now left|]. unfold mem. now rewrite Eg.
      * intros [H|[[->|H1] H2]]; [left; now right|left; now left|right; tauto].
    + destruct (IH precision_scores) as (scores' & m & Hloop & Hwf' & Hm & Hkeys).
      { intros q' Hq'. apply Hlookup. now right. }
      { exact Hwf. }
      exists scores', m. split; [exact Hloop|]. split; [exact Hwf'|].
      split; [exact Hm|].
      intros q0. rewrite Hkeys. cbn [In].
      split.
      * intros [H|[H1 H2]]; [now left | right; tauto].
      * intros [H|[[->|H1] H2]]; [now left| |right; tauto].
        unfold mem in H2. rewrite Eg in H2. discriminate H2.
Qed.

End BatchFacts.

(** X25. A batch in which no query has predictions leaves empty
    accumulators as they are, whatever the lookup of the ground truth
    answers: [calculate_mrr] then reports [nan] and [calculate_map]
    reports 0. *)
Theorem batch_without_predictions :
  forall (TrueLabels : Type) (lookup : string -> TrueLabels -> result DataFrame)
         (queries : list string) (true_labels : TrueLabels)
         (predicted_scores : dict (dict Q)) (top_k : Z) (threshold : Q),
    (forall q, In q queries -> exists y, lookup q true_labels = Ok y) ->
    (forall q, In q queries -> get predicted_scores q = None) ->
    calculate_mrr TrueLabels lookup [] queries true_labels predicted_scores
      top_k threshold
    = Ok ([], NaN)
    /\ calculate_map TrueLabels lookup [] queries true_labels predicted_scores
         top_k threshold
       = Ok ([], 0%Q).
Proof.
  intros TrueLabels lookup queries true_labels predicted_scores top_k threshold
    Hlookup Hnone.
  assert (Hfilter : filter (fun q => mem predicted_scores q) queries = []).
  { clear Hlookup. induction queries as [|q queries IH]; [reflexivity|].
    cbn [filter]. unfold mem at 1. rewrite (Hnone q (or_introl eq_refl)).
    apply IH. intros q' Hq'. apply Hnone. now right. }
  split.
  - destruct (calculate_mrr_loop TrueLabels lookup true_labels predicted_scores
                top_k threshold queries [] Hlookup) as (added & Hloop & Hlen).
    rewrite Hfilter in Hlen. destruct added; [|discriminate Hlen].
    exact Hloop.
  - destruct (calculate_map_loop TrueLabels lookup true_labels predicted_scores
                top_k threshold queries [] Hlookup (NoDup_nil _))
      as (scores' & m & Hloop & _ & Hm & Hkeys).
    destruct scores' as [|[q v] scores'].
    + cbn in Hm. injection Hm as <-. exact Hloop.
    + exfalso. destruct (proj1 (Hkeys q) (or_introl eq_refl)) as [[]|[Hq Hmem]].
      unfold mem in Hmem. rewrite (Hnone q Hq) in Hmem. discriminate Hmem.
Qed.

Lemma batch_without_predictions_witness :
  (forall q, In q ["q1"; "q2"] -> exists y, labels_q1 q tt = Ok y)
  /\ (forall q, In q ["q1"; "q2"] -> get (@nil (string * dict Q)) q = None)
  /\ calculate_mrr unit labels_q1 [] ["q1"; "q2"] tt [] (-1) 0 = Ok ([], NaN)
  /\ calculate_map unit labels_q1 [] ["q1"; "q2"] tt [] (-1) 0 = Ok ([], 0%Q).
Proof.
  assert (H1 : forall q, In q ["q1"; "q2"] -> exists y, labels_q1 q tt = Ok y).
  { intros q _. exists actual_q1. reflexivity. }
  assert (H2 : forall q, In q ["q1"; "q2"] -> get (@nil (string * dict Q)) q = None).
  { intros q _. reflexivity. }
  split; [exact H1|]. split; [exact H2|].
  exact (batch_without_predictions unit labels_q1 ["q1"; "q2"] tt [] (-1) 0 H1 H2).
Defined.



(** X27. When the lookup of the ground truth answers for every query,
    [calculate_map] never raises: the accumulator it leaves keeps its
    keys pairwise distinct and holds, besides the earlier entries, exactly
    the queries of the list that have predictions, each once, and the
    score reported is the mean over that accumulator. *)
Theorem calculate_map_stores_scored_queries :
  forall (TrueLabels : Type) (lookup : string -> TrueLabels -> result DataFrame)
         (true_labels : TrueLabels) (predicted_scores : dict (dict Q))
         (top_k : Z) (threshold : Q) (queries : list string)
         (precision_scores : dict Q),
    (forall q, In q queries -> exists y, lookup q true_labels = Ok y) ->
    wf precision_scores ->
    exists (scores' : dict Q) (map_score : Q),
      calculate_map TrueLabels lookup precision_scores queries true_labels
        predicted_scores top_k threshold
      = Ok (scores', map_score)
      /\ wf scores'
      /\ AveragePrecision.mean_avg_precision scores' = Ok map_score
      /\ (forall q, In q (keys scores')
                    <-> In q (keys precision_scores)
                        \/ (In q queries /\ mem predicted_scores q = true)).
Proof. exact calculate_map_loop. Qed.

Lemma calculate_map_stores_scored_queries_witness :
  (forall q, In q ["q1"; "q2"; "q1"] -> exists y, labels_q1 q tt = Ok y)
  /\ wf (@nil (string * Q))
  /\ exists (scores' : dict Q) (map_score : Q),
       calculate_map unit labels_q1 [] ["q1"; "q2"; "q1"] tt predictions_q1 (-1) 0
       = Ok (scores', map_score)
       /\ wf scores'
       /\ AveragePrecision.mean_avg_precision scores' = Ok map_score
       /\ (forall q, In q (keys scores')
                     <-> In q (keys (@nil (string * Q)))
                         \/ (In q ["q1"; "q2"; "q1"] /\ mem predictions_q1 q = true)).
Proof.
  assert (H1 : forall q, In q ["q1"; "q2"; "q1"] -> exists y, labels_q1 q tt = Ok y).
  { intros q _. exists actual_q1. reflexivity. }
  assert (H2 : wf (@nil (string * Q))) by constructor.
  split; [exact H1|]. split; [exact H2|].
  exact (calculate_map_stores_scored_queries unit labels_q1 tt predictions_q1
           (-1) 0 ["q1"; "q2"; "q1"] [] H1 H2).
Defined.

